(** * segment-anything-annotator: the annotation engine of [annotator.py]

    A shallow embedding of the parts of [MainWindow] that turn the
    segmentation model's masks into polygon proposals, commit an accepted
    proposal to the label list, load and save annotation files and thin out
    polygon points.

    Python values are modelled as follows.
    - Coordinates are Python floats (IEEE binary64): Rocq's primitive
      [float], whose operations are the same binary64 operations.
    - Confidence scores and contour areas are only ever compared; they are
      rationals [Q] (every finite float is one; NaN is not modelled).
    - A [str] is held as its UTF-8 bytes, a Rocq [string]; [int()] and
      [str.strip()] read it character by character, with the white space
      and decimal digits of Unicode 14.0 (CPython 3.11). An [int] is an
      integer [Z]; [int()] of a string applies the interpreter's default
      limit of 4300 digits, [str()] of an [int] is its numeral (group
      ids beyond that limit, on which [str()] would raise, are left
      out).
    - A handler of the window is a computation over the window's fields
      that returns or raises, see [M]; the exceptions modelled are the
      ones the code itself can provoke ([int()] on a string, an index
      past the end of a list, unpacking a tuple, a float square that
      overflows). *)

From Stdlib Require Import String Ascii ZArith QArith Bool Lia List.
From Stdlib Require Import Orders Sorting.Sorted Sorting.Permutation Sorting.Mergesort.
From Stdlib Require Import DecimalString DecimalPos DecimalZ.
From Stdlib Require Import Floats.PrimFloat.
From Stdlib Require Numbers.Cyclic.Int63.Uint63.
Import ListNotations.

Local Open Scope Z_scope.

(* ------------------------------------------------------------------ *)
(** ** Python values used by the window *)

(** The exceptions the modelled code can raise. *)
Inductive py_exn : Type :=
| ValueError
| IndexError
| OverflowError.

(** The result of running Python code: a value, or a raised exception. *)
Inductive outcome (A : Type) : Type :=
| Returned (a : A)
| Raised (e : py_exn).
Arguments Returned {A} a.
Arguments Raised {A} e.

(** What a shape's [group_id] attribute holds at run time: [None], an
    [int] (from the label dialog or [getMaxId() + 1]), or a [str] (what
    [loadAnno] reads back from a file written by [saveLabels]). *)
Inductive gid : Type :=
| GidNone
| GidInt (z : Z)
| GidStr (s : string).

(** A point, [QPointF(x, y)] or the pair [(p.x(), p.y())]. *)
Definition point : Type := (float * float)%type.

(** [float(n)] for a Python [int]; exact below [2^53]. *)
Definition float_of_Z (z : Z) : float :=
  if z <? 0 then PrimFloat.opp (PrimFloat.of_uint63 (Uint63.of_Z (- z)))
  else PrimFloat.of_uint63 (Uint63.of_Z z).

(** *** Strings: characters, [str.strip()], [int(s)] and [str(n)] *)

(** A Python [str] is held as its UTF-8 bytes. [utf8_chunks] cuts the
    bytes into characters, each with its code point; a byte that starts
    no well-formed character stands alone, under a code point that is
    neither white space nor a digit (the one [surrogateescape] gives
    it). *)
Definition is_cont (b : N) : bool := ((128 <=? b) && (b <? 192))%N.

(** The code point of the character that starts with the byte [a],
    [r] being the bytes after it, and the number of its bytes. *)
Definition utf8_head (a : ascii) (r : list ascii) : N * nat :=
  let b0 := N_of_ascii a in
  let stray := ((56320 + b0)%N, 1%nat) in
  if (b0 <? 128)%N then (b0, 1%nat)
  else
    match r with
    | [] => stray
    | a1 :: r1 =>
        let b1 := N_of_ascii a1 in
        if ((194 <=? b0) && (b0 <? 224))%N && is_cont b1
        then (((b0 - 192) * 64 + (b1 - 128))%N, 2%nat)
        else
          match r1 with
          | [] => stray
          | a2 :: r2 =>
              let b2 := N_of_ascii a2 in
              let c3 := (((b0 - 224) * 64 + (b1 - 128)) * 64 + (b2 - 128))%N in
              if ((224 <=? b0) && (b0 <? 240))%N
                 && is_cont b1 && is_cont b2 && (2048 <=? c3)%N
                 && negb ((55296 <=? c3) && (c3 <? 57344))%N
              then (c3, 3%nat)
              else
                match r2 with
                | [] => stray
                | a3 :: _ =>
                    let b3 := N_of_ascii a3 in
                    let c4 := ((((b0 - 240) * 64 + (b1 - 128)) * 64
                                + (b2 - 128)) * 64 + (b3 - 128))%N in
                    if ((240 <=? b0) && (b0 <? 245))%N
                       && is_cont b1 && is_cont b2 && is_cont b3
                       && ((65536 <=? c4) && (c4 <? 1114112))%N
                    then (c4, 4%nat)
                    else stray
                end
          end
    end.

(** The characters of [l], once the first [skip] bytes, which belong to
    the character before, are passed. *)
Fixpoint utf8_chunks_from (skip : nat) (l : list ascii) : list (N * list ascii) :=
  match l with
  | [] => []
  | a :: r =>
      match skip with
      | S k => utf8_chunks_from k r
      | O =>
          let (c, n) := utf8_head a r in
          (c, firstn n l) :: utf8_chunks_from (n - 1) r
      end
  end.

Definition utf8_chunks (l : list ascii) : list (N * list ascii) :=
  utf8_chunks_from 0 l.

Definition code_points (l : list ascii) : list N := map fst (utf8_chunks l).

(** The white space of [str]: the characters [str.strip()] removes and
    [str.isspace()] accepts (Unicode 14.0, which CPython 3.11 carries). *)
Definition is_py_space (c : N) : bool :=
  (((9 <=? c) && (c <=? 13)) || ((28 <=? c) && (c <=? 32))
   || (c =? 133) || (c =? 160) || (c =? 5760)
   || ((8192 <=? c) && (c <=? 8202))
   || (c =? 8232) || (c =? 8233) || (c =? 8239) || (c =? 8287)
   || (c =? 12288))%N.

(** The decimal digits of Unicode 14.0 come in runs of ten, zero to
    nine; these are the zeros. *)
Definition decimal_zeros : list N :=
  [ 48; 1632; 1776; 1984; 2406; 2534; 2662; 2790; 2918; 3046; 3174; 3302;
    3430; 3558; 3664; 3792; 3872; 4160; 4240; 6112; 6160; 6470; 6608; 6784;
    6800; 6992; 7088; 7232; 7248; 42528; 43216; 43264; 43472; 43504; 43600;
    44016; 65296; 66720; 68912; 69734; 69872; 69942; 70096; 70384; 70736;
    70864; 71248; 71360; 71472; 71904; 72016; 72784; 73040; 73120; 92768;
    92864; 93008; 120782; 120792; 120802; 120812; 120822; 123200; 123632;
    125264; 130032 ]%N.

(** The value of a character as a decimal digit, if it is one. *)
Definition unicode_decimal (c : N) : option N :=
  match find (fun z => (z <=? c) && (c <? z + 10))%N decimal_zeros with
  | Some z => Some (c - z)%N
  | None => None
  end.

Fixpoint drop_spaces (l : list (N * list ascii)) : list (N * list ascii) :=
  match l with
  | c :: r => if is_py_space (fst c) then drop_spaces r else l
  | [] => []
  end.

(** [s.strip()]: the white space at both ends removed. *)
Definition py_strip (l : list ascii) : list ascii :=
  concat (map snd (rev (drop_spaces (rev (drop_spaces (utf8_chunks l)))))).

(** What [int()] makes of a character before it parses: characters
    below 127 stay, other white space becomes a space, another decimal
    digit its ASCII digit, and anything else a character no numeral
    has. *)
Definition ascii_form (c : N) : ascii :=
  if (c <? 127)%N then ascii_of_N c
  else if is_py_space c then " "%char
  else match unicode_decimal c with
       | Some d => ascii_of_N (48 + d)
       | None => "?"%char
       end.

(** The white space [int()] skips around a numeral: of the ASCII
    characters only tab to carriage return and the space. *)
Definition is_int_space (c : ascii) : bool :=
  let n := nat_of_ascii c in
  ((9 <=? n)%nat && (n <=? 13)%nat) || (n =? 32)%nat.

Fixpoint skip_spaces (l : list ascii) : list ascii :=
  match l with
  | c :: r => if is_int_space c then skip_spaces r else l
  | [] => []
  end.

Definition digit_of_ascii (c : ascii) : option Z :=
  let n := nat_of_ascii c in
  if ((48 <=? n)%nat && (n <=? 57)%nat) then Some (Z.of_nat (n - 48)) else None.

Definition is_digit (c : ascii) : bool :=
  match digit_of_ascii c with
  | Some _ => true
  | None => false
  end.

(** Decimal digits, single underscores allowed between two digits. *)
Fixpoint py_digits (acc : Z) (after_digit : bool) (l : list ascii) : option Z :=
  match l with
  | [] => if after_digit then Some acc else None
  | c :: r =>
      match digit_of_ascii c with
      | Some d => py_digits (10 * acc + d) true r
      | None =>
          if (c =? "_")%char
          then (if after_digit then py_digits acc false r else None)
          else None
      end
  end.

(** The most digits [int()] converts, [sys.int_info.default_max_str_digits]. *)
Definition int_max_str_digits : Z := 4300.

(** [int(s)] in base 10: surrounding white space, an optional sign, then
    digits, no more of them than [int_max_str_digits]. [None] stands for
    [ValueError]. *)
Definition py_int_of_string (s : string) : option Z :=
  let l := map ascii_form (code_points (list_ascii_of_string s)) in
  match rev (skip_spaces (rev (skip_spaces l))) with
  | c :: r =>
      let body := if ((c =? "-") || (c =? "+"))%char then r else c :: r in
      match py_digits 0 false body with
      | Some n =>
          if int_max_str_digits <? Z.of_nat (length (filter is_digit body))
          then None
          else Some (if (c =? "-")%char then - n else n)
      | None => None
      end
  | [] => None
  end.

(** [str(n)] for an [int]: its decimal numeral. *)
Definition py_str_of_int (z : Z) : string :=
  NilZero.string_of_int (Z.to_int z).

(** [str(g)] for a group id; [str(None)] is the four letters [None]. *)
Definition py_str (g : gid) : string :=
  match g with
  | GidNone => "None"
  | GidInt z => py_str_of_int z
  | GidStr s => s
  end.

(** [int(g)] for a group id that is not [None]. *)
Definition py_int (g : gid) : outcome Z :=
  match g with
  | GidNone => Raised ValueError
  | GidInt z => Returned z
  | GidStr s =>
      match py_int_of_string s with
      | Some z => Returned z
      | None => Raised ValueError
      end
  end.

(** [l[i]] with Python's negative indices; [None] stands for [IndexError]. *)
Definition py_index {A : Type} (l : list A) (i : Z) : option A :=
  if 0 <=? i then nth_error l (Z.to_nat i)
  else if (- Z.of_nat (length l)) <=? i
       then nth_error l (Z.to_nat (Z.of_nat (length l) + i))
       else None.

(* ------------------------------------------------------------------ *)
(** ** Shapes and the window *)

(** Modelled from the spec: the [Shape] class of [shape.py], which is not
    among the sources. The fields are the ones [annotator.py] reads and
    writes: [label], [shape_type], [group_id], [flags], and [points],
    filled by [addPoint]; [close()] sets [closed]. *)
Record Shape : Type := mkShape {
  label : string;
  shape_type : string;
  group_id : gid;
  flags : list (string * bool);
  points : list point;
  closed : bool
}.

Definition set_label (v : string) (s : Shape) : Shape :=
  mkShape v (shape_type s) (group_id s) (flags s) (points s) (closed s).
Definition set_group_id (v : gid) (s : Shape) : Shape :=
  mkShape (label s) (shape_type s) v (flags s) (points s) (closed s).

(** One of the four proposal buttons: its text, the index of the mask
    whose thumbnail was last set as its icon, whether the icon has a
    non-zero size, and its keyboard shortcut. *)
Record Button : Type := mkButton {
  btn_text : string;
  btn_icon : option nat;
  btn_icon_shown : bool;
  btn_shortcut : string
}.

(** The fields of [MainWindow] (and of its canvas and actions) that the
    modelled handlers read or write. [labelList] holds the shape of each
    list item, in order. *)
Record MainWindow : Type := mkWindow {
  labelList : list Shape;
  sam_mask : list Shape;
  sam_mask_proposal : list (list Shape);
  currentBox : option (point * point);
  currentPos : option (list point);
  currentNeg : option (list point);
  class_on_flag : bool;
  category_list : list string;
  button_proposal_list : list Button;
  image_encoded_flag : bool;
  predictor_loaded : bool;
  current_img : string;
  save_enabled : bool;
  editMode_enabled : bool
}.

Definition set_labelList (v : list Shape) (w : MainWindow) : MainWindow :=
  mkWindow v (sam_mask w) (sam_mask_proposal w) (currentBox w) (currentPos w)
    (currentNeg w) (class_on_flag w) (category_list w) (button_proposal_list w)
    (image_encoded_flag w) (predictor_loaded w) (current_img w)
    (save_enabled w) (editMode_enabled w).
Definition set_sam_mask (v : list Shape) (w : MainWindow) : MainWindow :=
  mkWindow (labelList w) v (sam_mask_proposal w) (currentBox w) (currentPos w)
    (currentNeg w) (class_on_flag w) (category_list w) (button_proposal_list w)
    (image_encoded_flag w) (predictor_loaded w) (current_img w)
    (save_enabled w) (editMode_enabled w).
Definition set_sam_mask_proposal (v : list (list Shape)) (w : MainWindow)
  : MainWindow :=
  mkWindow (labelList w) (sam_mask w) v (currentBox w) (currentPos w)
    (currentNeg w) (class_on_flag w) (category_list w) (button_proposal_list w)
    (image_encoded_flag w) (predictor_loaded w) (current_img w)
    (save_enabled w) (editMode_enabled w).
Definition set_prompt (b : option (point * point)) (p n : option (list point))
  (w : MainWindow) : MainWindow :=
  mkWindow (labelList w) (sam_mask w) (sam_mask_proposal w) b p n
    (class_on_flag w) (category_list w) (button_proposal_list w)
    (image_encoded_flag w) (predictor_loaded w) (current_img w)
    (save_enabled w) (editMode_enabled w).
Definition set_button_proposal_list (v : list Button) (w : MainWindow)
  : MainWindow :=
  mkWindow (labelList w) (sam_mask w) (sam_mask_proposal w) (currentBox w)
    (currentPos w) (currentNeg w) (class_on_flag w) (category_list w) v
    (image_encoded_flag w) (predictor_loaded w) (current_img w)
    (save_enabled w) (editMode_enabled w).
Definition set_image_encoded_flag (v : bool) (w : MainWindow) : MainWindow :=
  mkWindow (labelList w) (sam_mask w) (sam_mask_proposal w) (currentBox w)
    (currentPos w) (currentNeg w) (class_on_flag w) (category_list w)
    (button_proposal_list w) v (predictor_loaded w) (current_img w)
    (save_enabled w) (editMode_enabled w).
Definition set_actions (save edit : bool) (w : MainWindow) : MainWindow :=
  mkWindow (labelList w) (sam_mask w) (sam_mask_proposal w) (currentBox w)
    (currentPos w) (currentNeg w) (class_on_flag w) (category_list w)
    (button_proposal_list w) (image_encoded_flag w) (predictor_loaded w)
    (current_img w) save edit.

(* ------------------------------------------------------------------ *)
(** ** Handlers as computations over the window *)

(** A method of the window: it runs from a window state and either
    returns a value or raises; in both cases the window is left in the
    state reached so far (Python does not roll back attribute writes). *)
Definition M (A : Type) : Type := MainWindow -> outcome A * MainWindow.

Definition ret {A : Type} (a : A) : M A := fun w => (Returned a, w).

Definition bind {A B : Type} (c : M A) (k : A -> M B) : M B :=
  fun w =>
    match c w with
    | (Returned a, w') => k a w'
    | (Raised e, w') => (Raised e, w')
    end.

Definition raise {A : Type} (e : py_exn) : M A := fun w => (Raised e, w).

Definition gets {A : Type} (f : MainWindow -> A) : M A :=
  fun w => (Returned (f w), w).

Definition modify (f : MainWindow -> MainWindow) : M unit :=
  fun w => (Returned tt, f w).

(** A pure computation that may raise, run inside a handler. *)
Definition lift {A : Type} (o : outcome A) : M A := fun w => (o, w).

Declare Scope py_scope.
Delimit Scope py_scope with py.
Notation "x <- c ;; k" := (bind c (fun x => k))
  (at level 61, c at next level, right associativity) : py_scope.
Notation "c ;; k" := (bind c (fun _ => k))
  (at level 61, right associativity) : py_scope.

(** [for x in xs: body(x)] *)
Fixpoint for_each {X : Type} (xs : list X) (body : X -> M unit) : M unit :=
  match xs with
  | [] => ret tt
  | x :: r => bind (body x) (fun _ => for_each r body)
  end.

(** [for x in xs: acc = body(x, acc)], the loop's local variable returned. *)
Fixpoint for_fold {X S : Type} (xs : list X) (body : X -> S -> M S) (acc : S)
  : M S :=
  match xs with
  | [] => ret acc
  | x :: r => bind (body x acc) (fun acc' => for_fold r body acc')
  end.

(* ------------------------------------------------------------------ *)
(** ** [getMaxId] *)

(** The loop of [getMaxId] over the remaining items, [max_id] so far. *)
Fixpoint getMaxId_loop (items : list Shape) (max_id : Z) : outcome Z :=
  match items with
  | [] => Returned max_id
  | s :: r =>
      match group_id s with
      | GidNone => getMaxId_loop r max_id
      | g =>
          match py_int g with
          | Returned n => getMaxId_loop r (Z.max max_id n)
          | Raised e => Raised e
          end
      end
  end.

Definition getMaxId : M Z :=
  fun w => (getMaxId_loop (labelList w) (-1), w).

(** [addLabel(shape)]: a new item at the end of the label list. (The
    list of distinct labels, the label history and the item's colour are
    display state and are not modelled.) *)
Definition addLabel (shape : Shape) : M unit :=
  modify (fun w => set_labelList (labelList w ++ [shape]) w).

(* ------------------------------------------------------------------ *)
(** ** Point reduction: [get_min_dis] and the loop of [reducePoint] *)

(** [x ** 2] for a float, as the correctly rounded product of [x] with
    itself. CPython leaves [x ** 2] to the C library's [pow], which
    returns this value wherever the square is exact, as for the
    whole-number coordinates of the scenarios, and may differ from it in
    the last bit elsewhere. The functions below are therefore given
    over any squaring function [pow2], and with [py_square] for it
    where a scenario is computed. When [x] is finite and the square is
    not, Python raises [OverflowError]. *)
Definition py_square (x : float) : outcome float :=
  let y := (x * x)%float in
  if PrimFloat.is_finite x && PrimFloat.is_infinity y
  then Raised OverflowError
  else Returned y.

(** [min(a, b)] of Python: [b] only when [b < a]. *)
Definition py_min (a b : float) : float :=
  if PrimFloat.ltb b a then b else a.

Section AnySquare.

(** [x ** 2] as the platform computes it: a float, or an exception. *)
Variable pow2 : float -> outcome float.

(** [math.sqrt((p[0] - q[0]) ** 2 + (p[1] - q[1]) ** 2)] *)
Definition distance_with (p q : point) : outcome float :=
  match pow2 (fst p - fst q) with
  | Raised e => Raised e
  | Returned sx =>
      match pow2 (snd p - snd q) with
      | Raised e => Raised e
      | Returned sy => Returned (PrimFloat.sqrt (sx + sy))
      end
  end.

(** The loop of [get_min_dis] over [points[1:]]; [points_new] is never
    empty, and [last points_new p] is its [points_new[-1]]. *)
Fixpoint get_min_dis_loop_with (todo : list point) (points_new : list point)
  (min_dis : float) : outcome float :=
  match todo with
  | [] => Returned min_dis
  | p :: r =>
      match distance_with p (last points_new p) with
      | Raised e => Raised e
      | Returned d =>
          get_min_dis_loop_with r (points_new ++ [p]) (py_min min_dis d)
      end
  end.

(** [get_min_dis]. The initial [10000] is an [int]; it is only compared
    with floats and multiplied by [1.5], where the float [10000.0]
    behaves the same. *)
Definition get_min_dis_with (pts : list point) : outcome float :=
  let min_dis := 10000%float in
  match pts with
  | p0 :: ((_ :: _) as rest) => get_min_dis_loop_with rest [p0] min_dis
  | _ => Returned min_dis
  end.

(** The decimation loop of [reducePoint] over [points[1:]]: a point is
    appended when it is farther than [min_dis * 1.5] from the last point
    kept. *)
Fixpoint reduce_loop_with (min_dis : float) (todo : list point)
  (points_new : list point) : outcome (list point) :=
  match todo with
  | [] => Returned points_new
  | p :: r =>
      match distance_with p (last points_new p) with
      | Raised e => Raised e
      | Returned d =>
          if PrimFloat.ltb (min_dis * 1.5)%float d
          then reduce_loop_with min_dis r (points_new ++ [p])
          else reduce_loop_with min_dis r points_new
      end
  end.

(** One pass with a given [min_dis]; [points[0]] raises on an empty list. *)
Definition decimate_with (min_dis : float) (pts : list point)
  : outcome (list point) :=
  match pts with
  | [] => Raised IndexError
  | p0 :: rest => reduce_loop_with min_dis rest [p0]
  end.

(** What [reducePoint] computes for the points of one selected shape. *)
Definition reduce_points_with (pts : list point) : outcome (list point) :=
  match get_min_dis_with pts with
  | Raised e => Raised e
  | Returned min_dis => decimate_with min_dis pts
  end.

(** The same loop written by recursion on the points still to visit,
    with the last kept point at hand; used to reason about
    [reduce_loop_with]. *)
Fixpoint keep_from_with (min_dis : float) (prev : point) (todo : list point)
  : outcome (list point) :=
  match todo with
  | [] => Returned []
  | p :: r =>
      match distance_with p prev with
      | Raised e => Raised e
      | Returned d =>
          if PrimFloat.ltb (min_dis * 1.5)%float d
          then match keep_from_with min_dis p r with
               | Returned kept => Returned (p :: kept)
               | Raised e => Raised e
               end
          else keep_from_with min_dis prev r
      end
  end.

(** No square raises in the distance between any two of the points. *)
Definition distances_defined_with (pts : list point) : Prop :=
  forall p q, In p pts -> In q pts -> exists d, distance_with p q = Returned d.

(** Each point of [l] is farther than [min_dis * 1.5] from the one
    before it, [prev] being the one before the first. *)
Fixpoint spaced (min_dis : float) (prev : point) (l : list point) : Prop :=
  match l with
  | [] => True
  | p :: r =>
      (exists d, distance_with p prev = Returned d /\
                 PrimFloat.ltb (min_dis * 1.5)%float d = true) /\
      spaced min_dis p r
  end.

End AnySquare.

(** The functions with the correctly rounded square for [** 2]. *)
Definition distance : point -> point -> outcome float :=
  distance_with py_square.
Definition get_min_dis : list point -> outcome float :=
  get_min_dis_with py_square.
Definition decimate : float -> list point -> outcome (list point) :=
  decimate_with py_square.
Definition reduce_points : list point -> outcome (list point) :=
  reduce_points_with py_square.

(* ------------------------------------------------------------------ *)
(** ** Proposal buttons: [show_proposals] and [choose_proposal1..4] *)

Definition set_icon (i : nat) (b : Button) : Button :=
  mkButton (btn_text b) (Some i) true (btn_shortcut b).
Definition set_shortcut (s : string) (b : Button) : Button :=
  mkButton (btn_text b) (btn_icon b) (btn_icon_shown b) s.
Definition reset_button (idx : nat) (b : Button) : Button :=
  mkButton ("proprosal" ++ py_str_of_int (Z.of_nat idx)) (btn_icon b) false
    (py_str_of_int (Z.of_nat idx + 1)).

(** [l] with its element at [i] replaced by [f] of it; [None] when [i]
    is past the end. *)
Fixpoint update_at {A : Type} (i : nat) (f : A -> A) (l : list A)
  : option (list A) :=
  match l, i with
  | [], _ => None
  | x :: r, O => Some (f x :: r)
  | x :: r, S j => option_map (cons x) (update_at j f r)
  end.

(** The body of the loop of [show_proposals] when [flag != 1]:
    [button_proposal_list[msk_idx]] raises past the last button. *)
Definition show_one (msk_idx : nat) : M unit :=
  fun w =>
    match update_at msk_idx
            (fun b => set_shortcut (py_str_of_int (Z.of_nat msk_idx + 1))
                        (set_icon msk_idx b))
            (button_proposal_list w) with
    | Some bs => (Returned tt, set_button_proposal_list bs w)
    | None => (Raised IndexError, w)
    end.

Fixpoint reset_buttons (idx : nat) (bs : list Button) : list Button :=
  match bs with
  | [] => []
  | b :: r => reset_button idx b :: reset_buttons (S idx) r
  end.

(** [show_proposals(masks, flag)]: with [flag != 1] one thumbnail per
    mask, [n_masks] of them; with the default [flag] every button is
    reset. *)
Definition show_proposals (n_masks : nat) (flag : Z) : M unit :=
  if negb (flag =? 1)
  then for_each (seq 0 n_masks) show_one
  else modify (fun w =>
         set_button_proposal_list (reset_buttons 0 (button_proposal_list w)) w).

(** [choose_proposalK] for the button at position [k] (K = k + 1). The
    calls that only repaint the canvas are left out. *)
Definition choose_proposal (k : nat) : M unit :=
  fun w =>
    if (k <? length (sam_mask_proposal w))%nat
    then (Returned tt, set_sam_mask (nth k (sam_mask_proposal w) []) w)
    else (Returned tt, w).

Definition choose_proposal1 : M unit := choose_proposal 0.
Definition choose_proposal2 : M unit := choose_proposal 1.
Definition choose_proposal3 : M unit := choose_proposal 2.
Definition choose_proposal4 : M unit := choose_proposal 3.

(* ------------------------------------------------------------------ *)
(** ** From masks to proposals: [clickManualSegBBox], [clickManualSegBox] *)

(** A contour as OpenCV returns it: integer pixel coordinates. *)
Definition contour : Type := list (Z * Z).

Definition Qltb (x y : Q) : bool := negb (Qle_bool y x).

(** [np.argmax]: the first position of the largest score; [ValueError]
    on an empty vector. *)
Fixpoint argmax_loop (best : Q) (best_i i : nat) (l : list Q) : nat :=
  match l with
  | [] => best_i
  | x :: r =>
      if Qltb best x then argmax_loop x i (S i) r
      else argmax_loop best best_i (S i) r
  end.

Definition argmax (l : list Q) : outcome nat :=
  match l with
  | [] => Raised ValueError
  | x :: r => Returned (argmax_loop x 0 1 r)
  end.

(** The shape built from one contour, with group id [g]. *)
Definition contour_shape (g : Z) (c : contour) : Shape :=
  mkShape "Object" "polygon" (GidInt g) []
    (map (fun p => (float_of_Z (fst p), float_of_Z (snd p))) c) true.

Fixpoint enumerate_from {A : Type} (i : nat) (l : list A) : list (nat * A) :=
  match l with
  | [] => []
  | x :: r => (i, x) :: enumerate_from (S i) r
  end.

Section Segmentation.

(** OpenCV and the predictor are outside the repository: a mask is any
    value, [findContours] lists its contours (all of them, nested ones
    included) and [contourArea] gives the area one encloses. *)
Variable Mask : Type.
Variable findContours : Mask -> list contour.
Variable contourArea : contour -> Q.

(** The test guarding [continue] in the loop over [points_list]. *)
Definition discarded (points_list : list contour) (c : contour) : bool :=
  Qltb (contourArea c) 100 && (1 <? length points_list)%nat.

(** The body of the loop over [points_list] for the contour [c]:
    [continue], or a new shape appended to [tmp_sam_mask]. *)
Definition add_contour (points_list : list contour) (c : contour)
  (tmp_sam_mask : list Shape) : M (list Shape) :=
  if discarded points_list c then ret tmp_sam_mask
  else (max_id <- getMaxId ;;
        ret (tmp_sam_mask ++ [contour_shape (max_id + 1) c]))%py.

(** The loop over the contours of one mask; returns [tmp_sam_mask]. *)
Definition mask_shapes (points_list : list contour) : M (list Shape) :=
  for_fold points_list (add_contour points_list) [].

(** The body of the loop over the masks, for the mask at [msk_idx]. *)
Definition add_mask (target_idx : nat) (im : nat * Mask) : M unit :=
  (tmp_sam_mask <- mask_shapes (findContours (snd im)) ;;
   (if (fst im =? target_idx)%nat
    then modify (set_sam_mask tmp_sam_mask) else ret tt) ;;
   modify (fun w =>
     set_sam_mask_proposal (sam_mask_proposal w ++ [tmp_sam_mask]) w))%py.

(** What both handlers do with the predictor's answer, [masks] (already
    resized by [transform_output]) and [iou_prediction]. *)
Definition propose (masks : list Mask) (iou_prediction : list Q) : M unit :=
  (target_idx <- lift (argmax iou_prediction) ;;
   show_proposals (length masks) 0 ;;
   modify (set_sam_mask_proposal []) ;;
   for_each (enumerate_from 0 masks) (add_mask target_idx))%py.

(** [clickManualSegBBox]; [prediction] is what [predictor.predict]
    answers for the box. *)
Definition clickManualSegBBox (prediction : list Mask * list Q) : M unit :=
  fun w =>
    match currentBox w with
    | Some _ =>
        if negb (predictor_loaded w) || (current_img w =? "")%string
        then (Returned tt, w)
        else propose (fst prediction) (snd prediction)
               (set_image_encoded_flag true w)
    | None => (Returned tt, w)
    end.

(** [clickManualSegBox]; [prediction] is what [predictor.predict]
    answers for the clicks. *)
Definition clickManualSegBox (prediction : list Mask * list Q) : M unit :=
  fun w =>
    match currentPos w, currentNeg w with
    | None, None => (Returned tt, w)
    | _, _ =>
        if negb (predictor_loaded w) || (current_img w =? "")%string
        then (Returned tt, w)
        else propose (fst prediction) (snd prediction)
               (set_image_encoded_flag true w)
    end.

End Segmentation.

Arguments add_mask {Mask} findContours contourArea target_idx im.
Arguments propose {Mask} findContours contourArea masks iou_prediction.
Arguments clickManualSegBBox {Mask} findContours contourArea prediction.
Arguments clickManualSegBox {Mask} findContours contourArea prediction.

(* ------------------------------------------------------------------ *)
(** ** Committing the selected mask: [addSamMask] *)

(** What [labelDialog.popUp] returns: a 3-tuple [(text, flags, group_id)],
    a 4-tuple with a description added, or (for the record) a tuple of
    some other length, whose items are never read. [text] is [None] when
    the dialog is cancelled. *)
Inductive popUp_result : Type :=
| Tuple3 (text : option string) (fl : list (string * bool)) (g : gid)
| Tuple4 (text : option string) (fl : list (string * bool)) (g : gid)
    (description : string)
| TupleOther (len : nat).

(** [label, _, group_id, _ = xx] or [label, _, group_id = xx]; unpacking
    a tuple of the wrong length raises [ValueError]. *)
Definition unpack (xx : popUp_result) : outcome (option string * gid) :=
  match xx with
  | Tuple3 text _ g => Returned (text, g)
  | Tuple4 text _ g _ => Returned (text, g)
  | TupleOther _ => Raised ValueError
  end.

(** [type(group_id) != int] *)
Definition not_int (g : gid) : bool :=
  match g with
  | GidInt _ => false
  | _ => true
  end.

(** The branch [if len(self.sam_mask) > 0] of [addSamMask]; [xx] is the
    dialog's answer, asked for only when [class_on_flag] is set. *)
Definition commit_sam_mask (xx : popUp_result) : M unit :=
  (max_id <- getMaxId ;;
   let label0 := Some "Object"%string in
   let group_id0 := GidInt (max_id + 1) in
   on <- gets class_on_flag ;;
   lg <- (if on : bool then lift (unpack xx) else ret (label0, group_id0)) ;;
   let label1 := match fst lg with Some l => l | None => "Object"%string end in
   group_id1 <- (if not_int (snd lg)
                 then (m <- getMaxId ;; ret (GidInt (m + 1)))
                 else ret (snd lg)) ;;
   masks <- gets sam_mask ;;
   for_each masks
     (fun sam_mask => addLabel (set_group_id group_id1 (set_label label1 sam_mask))))%py.

(** [addSamMask]: the commit branch when a mask is selected, then the
    lines that run in either case. (The call that hands the label list
    to the canvas is left out.) *)
Definition addSamMask (xx : popUp_result) : M unit :=
  (masks <- gets sam_mask ;;
   (if (0 <? length masks)%nat then commit_sam_mask xx else ret tt) ;;
   modify (set_prompt None None None) ;;
   modify (set_sam_mask []) ;;
   modify (set_sam_mask_proposal []) ;;
   show_proposals 0 1 ;;
   modify (set_actions true true))%py.

(* ------------------------------------------------------------------ *)
(** ** Annotation files: [saveLabels], [loadAnno], [loadImg] *)

(** One entry of the file's [shapes] array. [json.dump] followed by
    [json.load] gives back the strings, numbers and lists written. *)
Record json_shape : Type := mkJson {
  js_label : string;
  js_points : list point;
  js_group_id : gid;
  js_description : string;
  js_shape_type : string;
  js_flags : list (string * bool)
}.

(** [format_shape] of [saveLabels]. *)
Definition format_shape (s : Shape) : json_shape :=
  mkJson (label s) (points s) (GidStr (py_str (group_id s))) ""
    (shape_type s) (flags s).

(** The [shapes] array [saveLabels] writes. *)
Definition saveLabels (w : MainWindow) : list json_shape :=
  map format_shape (labelList w).

(** The [try: ... except: pass] at the head of the loop of [loadAnno]. *)
Definition resolve_label (cats : list string) (lbl : string) : string :=
  match py_int_of_string lbl with
  | Some ttt =>
      match py_index cats ttt with
      | Some c => c
      | None => lbl
      end
  | None => lbl
  end.

(** The body of the loop of [loadAnno] for one entry. *)
Definition load_one (shape : json_shape) : M unit :=
  (cats <- gets category_list ;;
   let lbl := resolve_label cats (js_label shape) in
   match js_points shape with
   | [] => ret tt
   | pts => addLabel (mkShape lbl (js_shape_type shape) (js_group_id shape)
                        (js_flags shape) pts true)
   end)%py.

Definition loadAnno (data : list json_shape) : M unit :=
  for_each data load_one.

(** The part of [loadImg] that touches the modelled fields; [file] is
    the content of the image's annotation file when there is one. *)
Definition loadImg (file : option (list json_shape)) : M unit :=
  (modify (set_labelList []) ;;
   match file with
   | Some data => loadAnno data
   | None => ret tt
   end ;;
   modify (set_image_encoded_flag false))%py.

(** A concrete area function, to run the conversion on given contours:
    the shoelace formula [|sum (x_i * y_{i+1} - x_{i+1} * y_i)| / 2] for
    a contour with integer vertices. *)
Fixpoint shoelace_sum (first prev : Z * Z) (rest : contour) : Z :=
  match rest with
  | [] => fst prev * snd first - fst first * snd prev
  | p :: r => fst prev * snd p - fst p * snd prev + shoelace_sum first p r
  end.

Definition shoelace_area (c : contour) : Q :=
  match c with
  | [] => 0
  | p :: r => Qmake (Z.abs (shoelace_sum p p r)) 2
  end.

(** The axis-parallel rectangle with corners [(x, y)] and [(x + w, y + h)]. *)
Definition rect (x y w h : Z) : contour :=
  [(x, y); (x + w, y); (x + w, y + h); (x, y + h)].

(** The contours of one mask that are not discarded, in contour order. *)
Definition kept_contours (contourArea : contour -> Q) (points_list : list contour)
  : list contour :=
  filter (fun c => negb (discarded contourArea points_list c)) points_list.

(** The group ids [getMaxId] takes into account: the integer each
    group id other than [None] stands for. *)
Fixpoint known_ids (items : list Shape) : list Z :=
  match items with
  | [] => []
  | s :: r =>
      match group_id s with
      | GidNone => known_ids r
      | g => match py_int g with
             | Returned n => n :: known_ids r
             | Raised _ => known_ids r
             end
      end
  end.

(** A group id [getMaxId] can digest: [None], or one [int()] accepts. *)
Definition int_like (s : Shape) : Prop :=
  group_id s = GidNone \/ exists n, py_int (group_id s) = Returned n.

(** The shapes [loadAnno] appends for the entries [data]. *)
Definition loaded_shape (cats : list string) (r : json_shape) : Shape :=
  mkShape (resolve_label cats (js_label r)) (js_shape_type r) (js_group_id r)
    (js_flags r) (js_points r) true.

Fixpoint loaded_shapes (cats : list string) (data : list json_shape)
  : list Shape :=
  match data with
  | [] => []
  | r :: rest =>
      match js_points r with
      | [] => loaded_shapes cats rest
      | _ => loaded_shape cats r :: loaded_shapes cats rest
      end
  end.

(** The four buttons the window is built with. *)
Definition initial_buttons : list Button :=
  [ mkButton "Proposal1" None false "1"; mkButton "Proposal2" None false "2";
    mkButton "Proposal3" None false "3"; mkButton "Proposal4" None false "4" ].

(** A window with the given label list, selected mask and proposals, a
    loaded model, an image, and a box prompt. *)
Definition window_with (items sel : list Shape) (props : list (list Shape))
  (on : bool) : MainWindow :=
  mkWindow items sel props
    (Some ((0%float, 0%float), (10%float, 10%float))) None None
    on ["cat"; "dog"]%string initial_buttons false true "a.jpg" false false.

(** The five points of the simplification scenario. *)
Definition scenario_C : list point :=
  [ (0, 0); (0, 2); (0, 4); (0, 6); (0, 26) ]%float.

(** The window with its selected mask and proposal list replaced. *)
Definition with_masks (sel : list Shape) (props : list (list Shape))
  (w : MainWindow) : MainWindow :=
  set_sam_mask sel (set_sam_mask_proposal props w).

(** The shapes of one mask when [getMaxId] returns [max_id]. *)
Definition shapes_of_mask {Mask : Type} (findContours : Mask -> list contour)
  (contourArea : contour -> Q) (max_id : Z) (mask : Mask) : list Shape :=
  map (contour_shape (max_id + 1))
      (kept_contours contourArea (findContours mask)).

(** The selected mask after the loop over the masks from position [i]
    on: the proposal at [target_idx] if the loop meets it, else [sel]. *)
Fixpoint select_target (i target_idx : nat) (props : list (list Shape))
  (sel : list Shape) : list Shape :=
  match props with
  | [] => sel
  | x :: r => select_target (S i) target_idx r
                (if (i =? target_idx)%nat then x else sel)
  end.

(** Five masks of one contour each, and their scores, the last one best. *)
Definition five_masks : list (list contour) :=
  [ [rect 0 0 20 20]; [rect 0 0 30 20]; [rect 0 0 40 20]; [rect 0 0 50 20];
    [rect 0 0 60 20] ].
Definition five_scores : list Q := [ 1#10; 2#10; 3#10; 4#10; 9#10 ]%Q.

(** Three masks and the scores of the spec's scenario B. *)
Definition three_masks : list (list contour) :=
  [ [rect 0 0 20 20]; [rect 0 0 30 20; rect 5 5 3 3]; [rect 0 0 40 20] ].
Definition three_scores : list Q := [ 2#10; 9#10; 5#10 ]%Q.

(** The window once [addSamMask] has run its last seven lines: no
    prompt, no selected mask, no proposals, buttons reset, the save and
    edit actions enabled. *)
Definition cleared (w : MainWindow) : MainWindow :=
  set_actions true true
    (set_button_proposal_list (reset_buttons 0 (button_proposal_list w))
       (set_sam_mask_proposal [] (set_sam_mask [] (set_prompt None None None w)))).

(** The label and group id [addSamMask] works with after the dialog, if
    any, has answered: the dialog's when [class_on_flag] is set, else
    ["Object"] and [max_id + 1]. *)
Definition dialog_answer (w : MainWindow) (xx : popUp_result) (max_id : Z)
  : outcome (option string * gid) :=
  if class_on_flag w then unpack xx
  else Returned (Some "Object"%string, GidInt (max_id + 1)).

(** A shape stamped with a label and a group id. *)
Definition stamp (l : string) (g : gid) (s : Shape) : Shape :=
  set_group_id g (set_label l s).

(** A proposal of one shape, as the conversion builds it. *)
Definition one_shape : Shape := contour_shape 0 (rect 0 0 20 20).

(* ------------------------------------------------------------------ *)
(** ** Rejecting a prompt and switching the class dialog *)

Definition set_class_on_flag (v : bool) (w : MainWindow) : MainWindow :=
  mkWindow (labelList w) (sam_mask w) (sam_mask_proposal w) (currentBox w)
    (currentPos w) (currentNeg w) v (category_list w) (button_proposal_list w)
    (image_encoded_flag w) (predictor_loaded w) (current_img w)
    (save_enabled w) (editMode_enabled w).
Definition set_current_img (v : string) (w : MainWindow) : MainWindow :=
  mkWindow (labelList w) (sam_mask w) (sam_mask_proposal w) (currentBox w)
    (currentPos w) (currentNeg w) (class_on_flag w) (category_list w)
    (button_proposal_list w) (image_encoded_flag w) (predictor_loaded w) v
    (save_enabled w) (editMode_enabled w).
Definition set_category_list (v : list string) (w : MainWindow) : MainWindow :=
  mkWindow (labelList w) (sam_mask w) (sam_mask_proposal w) (currentBox w)
    (currentPos w) (currentNeg w) (class_on_flag w) v (button_proposal_list w)
    (image_encoded_flag w) (predictor_loaded w) (current_img w)
    (save_enabled w) (editMode_enabled w).

(** [cleanPrompt]: prompt, selected mask and proposals dropped, buttons
    reset, the edit action enabled. (The shape being drawn on the canvas
    and the repaint calls are left out.) *)
Definition cleanPrompt : M unit :=
  (modify (set_prompt None None None) ;;
   modify (set_sam_mask []) ;;
   modify (set_sam_mask_proposal []) ;;
   show_proposals 0 1 ;;
   modify (fun w => set_actions (save_enabled w) true w))%py.

(** [clickSwitchClass]; the text shown next to the switch is left out. *)
Definition clickSwitchClass : M unit :=
  fun w =>
    if class_on_flag w
    then (Returned tt, set_class_on_flag false w)
    else (Returned tt, set_class_on_flag true w).

(* ------------------------------------------------------------------ *)
(** ** Category files: [clickCategoryChoose] *)

Module StringOrder <: Orders.TotalLeBool.
Definition t : Type := string.
Definition leb : string -> string -> bool := String.leb.
Definition leb_total := String.leb_total.
End StringOrder.

(** [list.sort()] on strings: the sorted rearrangement, by code. *)
Module StringSort := Mergesort.Sort StringOrder.

(** [s.strip()] *)
Definition str_strip (s : string) : string :=
  string_of_list_ascii (py_strip (list_ascii_of_string s)).

(** [clickCategoryChoose]; [file] is the list of lines [readlines()]
    gives for the chosen file, or [None] when opening or reading it
    fails, in which case the [except] clause leaves everything as it
    was. *)
Definition clickCategoryChoose (file : option (list string)) : M unit :=
  match file with
  | Some data =>
      modify (fun w => set_category_list (StringSort.sort (map str_strip data)) w)
  | None => ret tt
  end.

(* ------------------------------------------------------------------ *)
(** ** Images, annotation files and navigation *)

(** The last component of a path, [os.path.basename] (POSIX paths). *)
Fixpoint until_slash (l : list ascii) : list ascii :=
  match l with
  | [] => []
  | c :: r => if (c =? "/")%char then [] else c :: until_slash r
  end.

Definition basename (p : string) : string :=
  string_of_list_ascii (rev (until_slash (rev (list_ascii_of_string p)))).

(** [s[:-4]], on the bytes: the image paths come from the two [glob]
    patterns, so the last four characters are an ASCII extension. *)
Definition drop_last4 (s : string) : string :=
  let l := list_ascii_of_string s in
  string_of_list_ascii (firstn (length l - 4) l).

(** [os.path.join(a, b)] (POSIX paths). *)
Definition path_join (a b : string) : string :=
  match list_ascii_of_string b with
  | c :: _ => if (c =? "/")%char then b
              else match rev (list_ascii_of_string a) with
                   | [] => b
                   | d :: _ => if (d =? "/")%char then a ++ b
                               else a ++ "/" ++ b
                   end
  | [] => match rev (list_ascii_of_string a) with
          | [] => b
          | d :: _ => if (d =? "/")%char then a ++ b else a ++ "/" ++ b
          end
  end%string.

(** The annotation file of an image, as [loadImg] names it. *)
Definition output_filename (dir img : string) : string :=
  path_join dir (drop_last4 (basename img) ++ ".json")%string.

(** The annotation files on disk: path and [shapes] array, the most
    recently written first. *)
Definition Disk : Type := list (string * list json_shape).

Fixpoint read_file (path : string) (d : Disk) : option (list json_shape) :=
  match d with
  | [] => None
  | (p, data) :: r => if (p =? path)%string then Some data else read_file path r
  end.

Definition write_file (path : string) (data : list json_shape) (d : Disk) : Disk :=
  (path, data) :: d.

(** What a handler of the session can raise: an exception of the window's
    handlers, or the [AttributeError] of [cv2.imread(...).shape] when the
    image cannot be read. *)
Inductive nav_exn : Type :=
| WindowRaised (e : py_exn)
| AttributeError.

Inductive nav_outcome : Type :=
| Done
| Failed (e : nav_exn).

(** The window together with the fields of [MainWindow] that navigation
    and saving use, the annotation files, and the three actions that
    start a drawing mode. *)
Record Session : Type := mkSession {
  window : MainWindow;
  img_list : list string;
  img_len : Z;
  current_img_index : Z;
  current_output_dir : string;
  current_output_filename : string;
  disk : Disk;
  createMode_enabled : bool;
  createPointMode_enabled : bool;
  createRectangleMode_enabled : bool
}.

Definition set_window (v : MainWindow) (s : Session) : Session :=
  mkSession v (img_list s) (img_len s) (current_img_index s)
    (current_output_dir s) (current_output_filename s) (disk s)
    (createMode_enabled s) (createPointMode_enabled s)
    (createRectangleMode_enabled s).
Definition set_img_list (v : list string) (n : Z) (s : Session) : Session :=
  mkSession (window s) v n (current_img_index s)
    (current_output_dir s) (current_output_filename s) (disk s)
    (createMode_enabled s) (createPointMode_enabled s)
    (createRectangleMode_enabled s).
Definition set_current_img_index (v : Z) (s : Session) : Session :=
  mkSession (window s) (img_list s) (img_len s) v
    (current_output_dir s) (current_output_filename s) (disk s)
    (createMode_enabled s) (createPointMode_enabled s)
    (createRectangleMode_enabled s).
Definition set_current_output_dir (v : string) (s : Session) : Session :=
  mkSession (window s) (img_list s) (img_len s) (current_img_index s)
    v (current_output_filename s) (disk s)
    (createMode_enabled s) (createPointMode_enabled s)
    (createRectangleMode_enabled s).
Definition set_current_output_filename (v : string) (s : Session) : Session :=
  mkSession (window s) (img_list s) (img_len s) (current_img_index s)
    (current_output_dir s) v (disk s)
    (createMode_enabled s) (createPointMode_enabled s)
    (createRectangleMode_enabled s).
Definition set_disk (v : Disk) (s : Session) : Session :=
  mkSession (window s) (img_list s) (img_len s) (current_img_index s)
    (current_output_dir s) (current_output_filename s) v
    (createMode_enabled s) (createPointMode_enabled s)
    (createRectangleMode_enabled s).
Definition set_create_actions (poly pt rect : bool) (s : Session) : Session :=
  mkSession (window s) (img_list s) (img_len s) (current_img_index s)
    (current_output_dir s) (current_output_filename s) (disk s) poly pt rect.

(** [setClean]: the save action disabled, the polygon action enabled. *)
Definition setClean (s : Session) : Session :=
  set_create_actions true (createPointMode_enabled s)
    (createRectangleMode_enabled s)
    (set_window (set_actions false (editMode_enabled (window s)) (window s)) s).

(** [_saveFile(filename)]: nothing for an empty name; else the label
    list is written and the window marked clean. *)
Definition _saveFile (filename : string) (s : Session) : Session :=
  if (filename =? "")%string then s
  else setClean (set_disk (write_file filename (saveLabels (window s)) (disk s)) s).

(** [saveFile] *)
Definition saveFile (s : Session) : Session :=
  _saveFile (current_output_filename s) s.

Section Images.

(** Whether [cv2.imread] can read the image at a path. *)
Variable imread_ok : string -> bool.

(** [loadImg] with its file handling: the image is read, the annotation
    file named after it, and the label list replaced by that file's
    shapes, if the file exists. *)
Definition loadImg_file (s : Session) : nav_outcome * Session :=
  if imread_ok (current_img (window s)) then
    let fn := output_filename (current_output_dir s) (current_img (window s)) in
    let s1 := set_current_output_filename fn s in
    match loadImg (read_file fn (disk s1)) (window s1) with
    | (Returned _, w') => (Done, set_window w' s1)
    | (Raised e, w') => (Failed (WindowRaised e), set_window w' s1)
    end
  else (Failed AttributeError, s).

(** The three lines both navigation buttons share once the index has
    been changed: [current_img = img_list[current_img_index]], then
    [loadImg()]. *)
Definition show_current (s : Session) : nav_outcome * Session :=
  match py_index (img_list s) (current_img_index s) with
  | Some img => loadImg_file (set_window (set_current_img img (window s)) s)
  | None => (Failed (WindowRaised IndexError), s)
  end.

Definition clickButtonNext (s : Session) : nav_outcome * Session :=
  let s1 := if save_enabled (window s) then saveFile s else s in
  if current_img_index s1 <? img_len s1 - 1
  then show_current (set_current_img_index (current_img_index s1 + 1) s1)
  else (Done, s1).

Definition clickButtonLast (s : Session) : nav_outcome * Session :=
  let s1 := if save_enabled (window s) then saveFile s else s in
  if 0 <? current_img_index s1
  then show_current (set_current_img_index (current_img_index s1 - 1) s1)
  else (Done, s1).

(** [clickFileChoose]; [directory] is the dialog's answer, [jpgs] and
    [pngs] what the two [glob] calls list for it. *)
Definition clickFileChoose (directory : string) (jpgs pngs : list string)
  (s : Session) : nav_outcome * Session :=
  if (directory =? "")%string then (Done, s)
  else
    let l := StringSort.sort (jpgs ++ pngs) in
    let s1 := set_img_list l (Z.of_nat (length l)) s in
    if img_len s1 =? 0 then (Done, s1)
    else show_current (set_current_img_index 0 s1).

(** [clickSaveChoose]; [directory] is the dialog's answer. *)
Definition clickSaveChoose (directory : string) (s : Session)
  : nav_outcome * Session :=
  if (directory =? "")%string then (Done, s)
  else loadImg_file (set_current_output_dir directory s).

End Images.

(** [toggleDrawMode(edit, createMode)], as far as the actions go (the
    two calls that switch the canvas are left out). *)
Definition toggleDrawMode (edit : bool) (createMode : string) (s : Session)
  : nav_outcome * Session :=
  let finish (s1 : Session) :=
    (Done,
     set_window (set_actions (save_enabled (window s1)) (negb edit) (window s1)) s1) in
  if edit then finish (set_create_actions true true true s)
  else if (createMode =? "polygon")%string
       then finish (set_create_actions false true true s)
  else if (createMode =? "point")%string
       then finish (set_create_actions true false true s)
  else if (createMode =? "rectangle")%string
       then finish (set_create_actions true true false s)
  else (Failed (WindowRaised ValueError), s).

(** [setEditMode] *)
Definition setEditMode (s : Session) : nav_outcome * Session :=
  toggleDrawMode true "polygon" s.

(* ------------------------------------------------------------------ *)
(** ** Predicates used to state properties *)

(** The window with the four things a prompt changes replaced: the
    buttons, the selected mask, the proposals and the flag that says the
    image has been encoded. *)
Definition with_prompt_state (bs : list Button) (sel : list Shape)
  (props : list (list Shape)) (encoded : bool) (w : MainWindow) : MainWindow :=
  set_image_encoded_flag encoded
    (set_button_proposal_list bs (with_masks sel props w)).

(** A computation that changes nothing but those four, whether it
    returns or raises. *)
Definition touches_only_prompt_state {A : Type} (c : M A) : Prop :=
  forall w, exists bs sel props encoded,
    snd (c w) = with_prompt_state bs sel props encoded w.

(** Every button's shortcut is the number of its position, from 1. *)
Definition shortcuts_ok (from : nat) (bs : list Button) : Prop :=
  forall k b, nth_error bs k = Some b ->
              btn_shortcut b = py_str_of_int (Z.of_nat (from + k) + 1).

(** [l1] is [l2] with some elements left out, order kept. *)
Inductive subseq {A : Type} : list A -> list A -> Prop :=
| subseq_nil : subseq [] []
| subseq_skip (x : A) (l1 l2 : list A) : subseq l1 l2 -> subseq l1 (x :: l2)
| subseq_keep (x : A) (l1 l2 : list A) : subseq l1 l2 -> subseq (x :: l1) (x :: l2).

Definition has_points (s : Shape) : bool :=
  match points s with
  | [] => false
  | _ => true
  end.

(** What a shape with points is after [saveLabels] and [loadAnno]. *)
Definition reloaded (cats : list string) (s : Shape) : Shape :=
  mkShape (resolve_label cats (label s)) (shape_type s)
    (GidStr (py_str (group_id s))) (flags s) (points s) true.

(** The integer a group id stands for, if any. *)
Definition gid_value (g : gid) : option Z :=
  match py_int g with
  | Returned n => Some n
  | Raised _ => None
  end.

(** The navigation fields agree: [img_len] is the length of [img_list],
    the index is a position in it, and the current image is the one at
    that position. *)
Definition nav_ok (s : Session) : Prop :=
  img_len s = Z.of_nat (length (img_list s)) /\
  0 <= current_img_index s < img_len s /\
  nth_error (img_list s) (Z.to_nat (current_img_index s))
  = Some (current_img (window s)).

(** No [/] in a file name. *)
Definition no_slash (s : string) : bool :=
  forallb (fun c => negb (c =? "/")%char) (list_ascii_of_string s).

(** A session on the images [imgs], at position [idx], with annotation
    files [d] in the directory [output]. *)
Definition session_with (w : MainWindow) (imgs : list string) (idx : Z)
  (fn : string) (d : Disk) : Session :=
  mkSession w imgs (Z.of_nat (length imgs)) idx "output" fn d true true true.

(* ================================================================== *)
(** * Properties *)

(** ** [int(str(n))] *)

Ltac eval_digit :=
  match goal with
  | |- context [digit_of_ascii ?c] =>
      let v := eval vm_compute in (digit_of_ascii c) in
      change (digit_of_ascii c) with v
  end.

Lemma py_digits_of_uint_acc (d : Decimal.uint) :
  forall acc : positive,
    py_digits (Z.pos acc) true
      (list_ascii_of_string (NilEmpty.string_of_uint d))
    = Some (Z.pos (Pos.of_uint_acc d acc)).
Proof.
  induction d; intros acc; cbn [NilEmpty.string_of_uint list_ascii_of_string
                                  py_digits Pos.of_uint_acc];
    [reflexivity|..];
    (eval_digit; cbv iota; rewrite <- IHd; f_equal; lia).
Qed.

Lemma py_digits_of_uint (d : Decimal.uint) :
  forall after_digit : bool,
    d <> Decimal.Nil \/ after_digit = true ->
    py_digits 0 after_digit
      (list_ascii_of_string (NilEmpty.string_of_uint d))
    = Some (Z.of_N (Pos.of_uint d)).
Proof.
  induction d; intros b Hb; cbn [NilEmpty.string_of_uint list_ascii_of_string
                                   py_digits Pos.of_uint];
    [destruct Hb as [Hb| ->]; [congruence | reflexivity] | ..];
    eval_digit; cbv iota;
    [ apply IHd; now right
    | change (10 * 0 + ?k) with k; apply py_digits_of_uint_acc .. ].
Qed.

Lemma length_list_ascii_of_string (s : string) :
  length (list_ascii_of_string s) = String.length s.
Proof. induction s as [|c s IH]; cbn; [reflexivity | now rewrite IH]. Qed.

Lemma utf8_chunks_ascii (a : ascii) (r : list ascii) :
  (N_of_ascii a <? 128)%N = true ->
  utf8_chunks (a :: r) = (N_of_ascii a, [a]) :: utf8_chunks r.
Proof.
  intros H. unfold utf8_chunks. cbn [utf8_chunks_from].
  unfold utf8_head. now rewrite H.
Qed.

Lemma skip_spaces_none (l : list ascii) :
  Forall (fun c => is_int_space c = false) l -> skip_spaces l = l.
Proof. intros [|c r Hc _]; cbn [skip_spaces]; [reflexivity | now rewrite Hc]. Qed.

Lemma skip_spaces_both_none (l : list ascii) :
  Forall (fun c => is_int_space c = false) l ->
  rev (skip_spaces (rev (skip_spaces l))) = l.
Proof.
  intros H. rewrite (skip_spaces_none l H).
  rewrite skip_spaces_none; [apply rev_involutive | now apply Forall_rev].
Qed.

(** A decimal numeral is ASCII: [int()] reads its characters as they
    are, none is white space and all are digits. *)
Lemma digits_plain (d : Decimal.uint) :
  let l := list_ascii_of_string (NilEmpty.string_of_uint d) in
  map ascii_form (code_points l) = l /\
  Forall (fun c => is_int_space c = false) l /\
  filter is_digit l = l.
Proof.
  cbn zeta. unfold code_points.
  induction d as [|d [IH1 [IH2 IH3]]|d [IH1 [IH2 IH3]]|d [IH1 [IH2 IH3]]
                  |d [IH1 [IH2 IH3]]|d [IH1 [IH2 IH3]]|d [IH1 [IH2 IH3]]
                  |d [IH1 [IH2 IH3]]|d [IH1 [IH2 IH3]]|d [IH1 [IH2 IH3]]
                  |d [IH1 [IH2 IH3]]];
    cbn [NilEmpty.string_of_uint list_ascii_of_string];
    [split; [reflexivity | split; [constructor | reflexivity]] | ..];
    (rewrite utf8_chunks_ascii by reflexivity; cbn [map fst];
     split; [rewrite IH1; reflexivity|];
     split; [constructor; [reflexivity | exact IH2]|];
     change (filter is_digit (?c :: ?r)) with (c :: filter is_digit r);
     now rewrite IH3).
Qed.

Lemma digits_head (d : Decimal.uint) :
  d <> Decimal.Nil ->
  exists c r,
    list_ascii_of_string (NilEmpty.string_of_uint d) = c :: r /\
    (c =? "-")%char = false /\ (c =? "+")%char = false.
Proof.
  intros Hd. destruct d; [congruence|..];
    cbn [NilEmpty.string_of_uint list_ascii_of_string];
    do 2 eexists; (split; [reflexivity|]); split; reflexivity.
Qed.

Lemma py_int_of_uint_string (d : Decimal.uint) :
  d <> Decimal.Nil ->
  Z.of_nat (String.length (NilEmpty.string_of_uint d)) <= int_max_str_digits ->
  py_int_of_string (NilEmpty.string_of_uint d) = Some (Z.of_N (Pos.of_uint d)) /\
  py_int_of_string (String "-" (NilEmpty.string_of_uint d))
  = Some (- Z.of_N (Pos.of_uint d)).
Proof.
  intros Hd Hlen.
  destruct (digits_plain d) as [Hform [Hsp Hdig]]. cbn zeta in *.
  pose proof (py_digits_of_uint d false (or_introl Hd)) as Hval.
  rewrite <- length_list_ascii_of_string in Hlen.
  set (l := list_ascii_of_string (NilEmpty.string_of_uint d)) in *.
  assert (Hlim : (int_max_str_digits <? Z.of_nat (length (filter is_digit l))) = false).
  { rewrite Hdig. apply Z.ltb_ge. exact Hlen. }
  unfold py_int_of_string. split.
  - fold l. rewrite Hform, (skip_spaces_both_none l Hsp).
    destruct (digits_head d Hd) as [c [r [Hl [Hm Hp]]]]. fold l in Hl.
    rewrite Hl. rewrite Hm, Hp. cbn [orb]. rewrite <- Hl.
    now rewrite Hval, Hlim.
  - cbn [list_ascii_of_string]. fold l. unfold code_points in *.
    rewrite utf8_chunks_ascii by reflexivity. cbn [map fst].
    change (ascii_form (N_of_ascii "-")) with "-"%char. rewrite Hform.
    rewrite skip_spaces_both_none by (constructor; [reflexivity | exact Hsp]).
    change (("-" =? "-")%char) with true. cbn [orb].
    now rewrite Hval, Hlim.
Qed.

(** [int(str(n)) = n] for a numeral within the digit limit: an integer
    group id written by [saveLabels] is read back by [getMaxId] as the
    same integer. *)
Lemma py_int_of_str_of_int (z : Z) :
  Z.of_nat (String.length (py_str_of_int z)) <= int_max_str_digits ->
  py_int_of_string (py_str_of_int z) = Some z.
Proof.
  unfold py_str_of_int. destruct z as [|p|p]; [reflexivity| |];
    cbn [Z.to_int NilZero.string_of_int];
    pose proof (Unsigned.to_uint_nonnil p) as Hn;
    pose proof (Unsigned.of_to p) as Hp;
    (replace (NilZero.string_of_uint (Pos.to_uint p))
       with (NilEmpty.string_of_uint (Pos.to_uint p))
       by (destruct (Pos.to_uint p); [congruence | reflexivity ..]));
    intros Hlen.
  - destruct (py_int_of_uint_string (Pos.to_uint p) Hn Hlen) as [H1 _].
    rewrite H1, Hp. reflexivity.
  - destruct (py_int_of_uint_string (Pos.to_uint p) Hn) as [_ H2].
    + cbn [String.length] in Hlen. lia.
    + rewrite H2, Hp. reflexivity.
Qed.

(** ** Point reduction *)

Section AnySquareLemmas.

Variable pow2 : float -> outcome float.

Lemma reduce_loop_keep_from (m : float) (todo : list point) :
  forall (acc : list point) (p : point),
    reduce_loop_with pow2 m todo (acc ++ [p]) =
    match keep_from_with pow2 m p todo with
    | Returned kept => Returned ((acc ++ [p]) ++ kept)
    | Raised e => Raised e
    end.
Proof.
  induction todo as [|q r IH]; intros acc p;
    cbn [reduce_loop_with keep_from_with].
  - now rewrite app_nil_r.
  - rewrite last_last. destruct (distance_with pow2 q p) as [d|e]; [|reflexivity].
    destruct (PrimFloat.ltb (m * 1.5) d).
    + rewrite IH. destruct (keep_from_with pow2 m q r); [|reflexivity].
      now rewrite <- app_assoc.
    + apply IH.
Qed.

Lemma decimate_keep_from (m : float) (p0 : point) (rest : list point) :
  decimate_with pow2 m (p0 :: rest) =
  match keep_from_with pow2 m p0 rest with
  | Returned kept => Returned (p0 :: kept)
  | Raised e => Raised e
  end.
Proof. exact (reduce_loop_keep_from m rest [] p0). Qed.

Lemma keep_from_length (m : float) (todo : list point) :
  forall p kept,
    keep_from_with pow2 m p todo = Returned kept ->
    (length kept <= length todo)%nat.
Proof.
  induction todo as [|q r IH]; intros p kept; cbn [keep_from_with length].
  - intros [= <-]. cbn. lia.
  - destruct (distance_with pow2 q p) as [d|e]; [|discriminate].
    destruct (PrimFloat.ltb (m * 1.5) d).
    + destruct (keep_from_with pow2 m q r) as [k|e] eqn:Ek; [|discriminate].
      intros [= <-]. cbn [length]. specialize (IH q k Ek). lia.
    + intros H. specialize (IH p kept H). lia.
Qed.

Lemma keep_from_idempotent (m : float) (todo : list point) :
  forall p kept,
    keep_from_with pow2 m p todo = Returned kept ->
    keep_from_with pow2 m p kept = Returned kept.
Proof.
  induction todo as [|q r IH]; intros p kept; cbn [keep_from_with].
  - now intros [= <-].
  - destruct (distance_with pow2 q p) as [d|e] eqn:Ed; [|discriminate].
    destruct (PrimFloat.ltb (m * 1.5) d) eqn:E.
    + destruct (keep_from_with pow2 m q r) as [k|e] eqn:Ek; [|discriminate].
      intros [= <-]. cbn [keep_from_with]. rewrite Ed, E.
      now rewrite (IH q k Ek).
    + apply IH.
Qed.

Lemma keep_from_returns (m : float) (pts todo : list point) :
  distances_defined_with pow2 pts ->
  incl todo pts ->
  forall p, In p pts -> exists kept, keep_from_with pow2 m p todo = Returned kept.
Proof.
  intros Hd. induction todo as [|q r IH]; intros Hincl p Hp; cbn [keep_from_with].
  - now exists [].
  - assert (Hq : In q pts) by (apply Hincl; now left).
    assert (Hr : incl r pts) by (intros x Hx; apply Hincl; now right).
    destruct (Hd q p Hq Hp) as [d ->].
    destruct (PrimFloat.ltb (m * 1.5) d).
    + destruct (IH Hr q Hq) as [k ->]. now eexists.
    + now apply IH.
Qed.

Lemma get_min_dis_loop_returns (pts todo : list point) :
  distances_defined_with pow2 pts ->
  incl todo pts ->
  forall acc q min_dis,
    In q pts ->
    exists m, get_min_dis_loop_with pow2 todo (acc ++ [q]) min_dis = Returned m.
Proof.
  intros Hd. induction todo as [|p r IH]; intros Hincl acc q m Hq;
    cbn [get_min_dis_loop_with].
  - now eexists.
  - assert (Hp : In p pts) by (apply Hincl; now left).
    assert (Hr : incl r pts) by (intros x Hx; apply Hincl; now right).
    rewrite last_last. destruct (Hd p q Hp Hq) as [d ->].
    now apply IH.
Qed.

End AnySquareLemmas.

(** C5, as the code has it. On the points [(0,0), (0,2), (0,4), (0,6),
    (0,26)] the smallest gap is 2 and the threshold 3, and the points
    kept are [(0,0), (0,4), (0,26)]: [(0,4)] is at distance 4 from the
    last kept point [(0,0)], and [(0,6)] only at distance 2 from
    [(0,4)]. *)
Theorem reduce_points_scenario_C :
  get_min_dis scenario_C = Returned 2%float /\
  (2 * 1.5)%float = 3%float /\
  reduce_points scenario_C = Returned [ (0, 0); (0, 4); (0, 26) ]%float.
Proof. repeat split; vm_compute; reflexivity. Qed.

(** C5, as the spec states it, fails: the reduction returns a sequence
    that is not [(0,0), (0,6), (0,26)]. *)
Lemma reduce_points_scenario_C_not_spec :
  exists kept,
    reduce_points scenario_C = Returned kept /\
    kept <> [ (0, 0); (0, 6); (0, 26) ]%float.
Proof.
  eexists. split; [vm_compute; reflexivity|].
  intro H.
  apply (f_equal (fun l => match l with
                           | _ :: (_, y) :: _ => PrimFloat.ltb y 5
                           | _ => false
                           end)) in H.
  vm_compute in H. discriminate H.
Qed.

(** An empty point list makes [points[0]] raise. *)
Lemma reduce_points_empty : reduce_points [] = Raised IndexError.
Proof. reflexivity. Qed.

(** Finite coordinates far apart make a square overflow. *)
Lemma reduce_points_overflow :
  reduce_points [ (0, 0); (0x1p+600, 0) ]%float = Raised OverflowError.
Proof. vm_compute. reflexivity. Qed.

(** C6. Whatever the platform's [** 2] returns: whenever the reduction
    returns, its result starts with the first input point, is no longer
    than the input, and is a fixed point of the decimation pass run
    again with the same [min_dis] (hence the same threshold
    [min_dis * 1.5]). It returns on every non-empty point list in which
    no squared coordinate difference raises. *)
Theorem reduce_points_first_length_fixed_point
  (pow2 : float -> outcome float) (pts : list point) :
  (forall m kept,
     get_min_dis_with pow2 pts = Returned m ->
     reduce_points_with pow2 pts = Returned kept ->
     hd_error kept = hd_error pts /\
     (length kept <= length pts)%nat /\
     decimate_with pow2 m kept = Returned kept) /\
  (pts <> [] ->
   distances_defined_with pow2 pts ->
   exists m kept,
     get_min_dis_with pow2 pts = Returned m /\
     reduce_points_with pow2 pts = Returned kept).
Proof.
  split.
  - intros m kept Hm. unfold reduce_points_with. rewrite Hm.
    destruct pts as [|p0 rest]; [discriminate|].
    rewrite decimate_keep_from.
    destruct (keep_from_with pow2 m p0 rest) as [k|e] eqn:Ek; [|discriminate].
    intros [= <-]. split; [reflexivity|]. split.
    + cbn [length]. pose proof (keep_from_length pow2 m rest p0 k Ek). lia.
    + rewrite decimate_keep_from.
      now rewrite (keep_from_idempotent pow2 m rest p0 k Ek).
  - intros Hne Hd. destruct pts as [|p0 rest]; [congruence|].
    assert (H0 : In p0 (p0 :: rest)) by now left.
    assert (Hr : incl rest (p0 :: rest)) by (intros x Hx; now right).
    assert (Hm : exists m, get_min_dis_with pow2 (p0 :: rest) = Returned m).
    { unfold get_min_dis_with. destruct rest as [|p1 r]; [now eexists|].
      exact (get_min_dis_loop_returns pow2 _ (p1 :: r) Hd Hr [] p0 _ H0). }
    destruct Hm as [m Hm]. exists m.
    destruct (keep_from_returns pow2 m _ rest Hd Hr p0 H0) as [k Hk].
    exists (p0 :: k). split; [exact Hm|].
    unfold reduce_points_with. rewrite Hm, decimate_keep_from. now rewrite Hk.
Qed.

Lemma reduce_points_first_length_fixed_point_witness :
  exists m kept,
    get_min_dis scenario_C = Returned m /\
    reduce_points scenario_C = Returned kept /\
    hd_error kept = hd_error scenario_C /\
    (length kept <= length scenario_C)%nat /\
    decimate m kept = Returned kept.
Proof.
  destruct (reduce_points_first_length_fixed_point py_square scenario_C)
    as [Hprop Hret].
  destruct Hret as [m [kept [Hm Hk]]].
  - unfold scenario_C. discriminate.
  - intros p q Hp Hq. unfold scenario_C in Hp, Hq. cbn [In] in Hp, Hq.
    repeat (destruct Hp as [<-|Hp]);
      repeat (destruct Hq as [<-|Hq]);
      try contradiction; eexists; vm_compute; reflexivity.
  - exists m, kept. split; [exact Hm|]. split; [exact Hk|].
    exact (Hprop m kept Hm Hk).
Defined.

(** ** [getMaxId] *)

Lemma py_int_raises_ValueError (g : gid) (e : py_exn) :
  py_int g = Raised e -> e = ValueError.
Proof.
  destruct g as [|z|s]; cbn.
  - now intros [= <-].
  - discriminate.
  - destruct (py_int_of_string s); [discriminate | now intros [= <-]].
Qed.

Lemma known_ids_lower_bound (items : list Shape) :
  -1 <= fold_right Z.max (-1) (known_ids items).
Proof.
  induction items as [|s r IH]; cbn [known_ids fold_right]; [lia|].
  destruct (group_id s); [exact IH| |];
    (destruct (py_int _); cbn [fold_right]; lia).
Qed.

(** On a label list whose group ids are all [None] or integer-like,
    [getMaxId] returns the largest of them, or [-1] when there is none. *)
Lemma getMaxId_loop_int_like (items : list Shape) :
  Forall int_like items ->
  forall max_id, -1 <= max_id ->
    getMaxId_loop items max_id =
    Returned (Z.max max_id (fold_right Z.max (-1) (known_ids items))).
Proof.
  induction 1 as [|s r Hs _ IH]; intros m Hm; cbn [getMaxId_loop known_ids fold_right].
  - f_equal. lia.
  - destruct Hs as [Hs|[n Hn]].
    + rewrite Hs. now apply IH.
    + destruct (group_id s) eqn:Eg; [now apply IH| |];
        rewrite Hn; rewrite IH by lia; cbn [fold_right]; f_equal; lia.
Qed.

(** One group id that is not [None] and that [int()] rejects makes
    [getMaxId] raise [ValueError], whatever the other items are. *)
Lemma getMaxId_loop_raises (items : list Shape) (bad : Shape) :
  In bad items ->
  group_id bad <> GidNone ->
  (forall n, py_int (group_id bad) <> Returned n) ->
  forall max_id, getMaxId_loop items max_id = Raised ValueError.
Proof.
  intros Hin Hnn Hbad.
  induction items as [|s r IH]; intros m; [contradiction|].
  cbn [getMaxId_loop].
  destruct Hin as [->|Hin].
  - destruct (group_id bad) as [|z|s0] eqn:Eg.
    + congruence.
    + now elim (Hbad z).
    + destruct (py_int (GidStr s0)) as [n|e] eqn:Ei.
      * now elim (Hbad n).
      * now rewrite (py_int_raises_ValueError _ _ Ei).
  - destruct (group_id s) as [|z|s0] eqn:Eg.
    + now apply IH.
    + cbn [py_int]. now apply IH.
    + destruct (py_int (GidStr s0)) as [n|e] eqn:Ei.
      * now apply IH.
      * now rewrite (py_int_raises_ValueError _ _ Ei).
Qed.

(** The group ids 0, 2 and 5 give 6 as the next id; an empty list, or
    one whose group ids are all [None], gives 0. *)
Lemma getMaxId_scenario_A :
  getMaxId_loop [ mkShape "a" "polygon" (GidInt 0) [] [] true;
                  mkShape "b" "polygon" (GidInt 2) [] [] true;
                  mkShape "c" "polygon" (GidStr "5") [] [] true ]%string (-1)
  = Returned 5 /\
  getMaxId_loop [] (-1) = Returned (-1) /\
  getMaxId_loop [ mkShape "a" "polygon" GidNone [] [] true ]%string (-1)
  = Returned (-1).
Proof. repeat split; vm_compute; reflexivity. Qed.

(** C3 at the failing input: one shape whose group id is the string
    [None], which is what [loadAnno] restores for a shape saved without
    a group id. [getMaxId] raises instead of returning [-1]. *)
Theorem getMaxId_raises_on_restored_None :
  let w := window_with
             [ mkShape "Object" "polygon" (GidStr "None") []
                 [(1, 1)%float] true ]%string [] [] false in
  getMaxId w = (Raised ValueError, w).
Proof. vm_compute. reflexivity. Qed.

(** ** Annotation files *)

Lemma set_labelList_same (w : MainWindow) : set_labelList (labelList w) w = w.
Proof. now destruct w. Qed.

Lemma set_labelList_twice (a b : list Shape) (w : MainWindow) :
  set_labelList a (set_labelList b w) = set_labelList a w.
Proof. reflexivity. Qed.

Lemma load_one_spec (r : json_shape) (w : MainWindow) :
  load_one r w =
  (Returned tt,
   set_labelList (labelList w ++ loaded_shapes (category_list w) [r]) w).
Proof.
  unfold load_one, bind, gets, addLabel, modify, ret, loaded_shape.
  cbn [loaded_shapes]. unfold loaded_shape.
  destruct (js_points r) eqn:E.
  - now rewrite app_nil_r, set_labelList_same.
  - reflexivity.
Qed.

Lemma loaded_shapes_cons (cats : list string) (r : json_shape)
  (rest : list json_shape) :
  loaded_shapes cats (r :: rest) = loaded_shapes cats [r] ++ loaded_shapes cats rest.
Proof. cbn [loaded_shapes]. now destruct (js_points r). Qed.

Lemma loadAnno_spec (data : list json_shape) :
  forall w,
    loadAnno data w =
    (Returned tt,
     set_labelList (labelList w ++ loaded_shapes (category_list w) data) w).
Proof.
  unfold loadAnno.
  induction data as [|r rest IH]; intros w; cbn [for_each].
  - unfold ret. cbn [loaded_shapes]. now rewrite app_nil_r, set_labelList_same.
  - unfold bind at 1. rewrite load_one_spec, IH.
    rewrite (loaded_shapes_cons _ r rest).
    cbn [labelList category_list set_labelList].
    now rewrite app_assoc.
Qed.

Lemma loaded_shapes_have_points (cats : list string) (data : list json_shape) :
  Forall (fun s => points s <> []) (loaded_shapes cats data).
Proof.
  induction data as [|r rest IH]; cbn [loaded_shapes]; [constructor|].
  destruct (js_points r) eqn:E; [exact IH|].
  constructor; [|exact IH]. unfold loaded_shape. cbn [points]. now rewrite E.
Qed.

Lemma loaded_shapes_In (cats : list string) (data : list json_shape) (r : json_shape) :
  In r data -> js_points r <> [] -> In (loaded_shape cats r) (loaded_shapes cats data).
Proof.
  induction data as [|q rest IH]; intros Hin Hne; [contradiction|].
  cbn [loaded_shapes]. destruct Hin as [->|Hin].
  - destruct (js_points r); [congruence | now left].
  - destruct (js_points q); [now apply IH | right; now apply IH].
Qed.

Lemma loadImg_spec (data : list json_shape) (w : MainWindow) :
  loadImg (Some data) w =
  (Returned tt,
   set_image_encoded_flag false
     (set_labelList (loaded_shapes (category_list w) data) w)).
Proof.
  unfold loadImg, bind, modify. rewrite loadAnno_spec. reflexivity.
Qed.

(** Integer group ids survive saving and loading: on a label list whose
    shapes all have points and an [int] group id, [getMaxId] gives the
    same result after [saveLabels] and [loadImg] as before. *)
Lemma getMaxId_loop_after_save_and_load (cats : list string) (items : list Shape) :
  Forall (fun s => (exists z, group_id s = GidInt z /\
                              Z.of_nat (String.length (py_str_of_int z))
                              <= int_max_str_digits) /\
                   points s <> []) items ->
  forall max_id,
    getMaxId_loop (loaded_shapes cats (map format_shape items)) max_id
    = getMaxId_loop items max_id.
Proof.
  induction 1 as [|s r [[z [Hz Hlen]] Hp] _ IH]; intros m; [reflexivity|].
  cbn [map loaded_shapes]. unfold format_shape at 1. cbn [js_points].
  destruct (points s) as [|p ps] eqn:Ep; [congruence|].
  cbn [getMaxId_loop]. unfold loaded_shape at 1. cbn [group_id js_group_id format_shape].
  rewrite Hz. cbn [py_str py_int]. rewrite (py_int_of_str_of_int z Hlen). apply IH.
Qed.

Lemma getMaxId_after_save_and_load_of_int_ids (w w0 : MainWindow) :
  Forall (fun s => (exists z, group_id s = GidInt z /\
                              Z.of_nat (String.length (py_str_of_int z))
                              <= int_max_str_digits) /\
                   points s <> [])
         (labelList w) ->
  exists w1,
    loadImg (Some (saveLabels w)) w0 = (Returned tt, w1) /\
    getMaxId w1 = (getMaxId_loop (labelList w) (-1), w1).
Proof.
  intros H. eexists. split; [apply loadImg_spec|].
  unfold getMaxId. cbn [labelList set_image_encoded_flag set_labelList].
  unfold saveLabels. now rewrite getMaxId_loop_after_save_and_load.
Qed.

(** C9. Saving writes every group id as [str(group_id)], the string
    [None] for a shape without one; loading restores that string as the
    shape's group id; and on the label list restored from a file that
    held a shape (with points) saved without a group id, [getMaxId]
    raises [ValueError]. *)
Theorem getMaxId_raises_after_save_and_load (w w0 : MainWindow) (s : Shape) :
  In s (labelList w) ->
  group_id s = GidNone ->
  points s <> [] ->
  Forall (fun r => exists t, In t (labelList w) /\
                     js_group_id r = GidStr (py_str (group_id t)))
         (saveLabels w) /\
  exists w1 restored,
    loadImg (Some (saveLabels w)) w0 = (Returned tt, w1) /\
    In restored (labelList w1) /\
    group_id restored = GidStr "None" /\
    points restored = points s /\
    getMaxId w1 = (Raised ValueError, w1).
Proof.
  intros Hin Hg Hp. split.
  - unfold saveLabels. apply Forall_forall. intros r Hr.
    apply in_map_iff in Hr. destruct Hr as [t [<- Ht]]. now exists t.
  - rewrite loadImg_spec.
    set (cats := category_list w0).
    set (restored := loaded_shape cats (format_shape s)).
    assert (Hres : In restored (loaded_shapes cats (saveLabels w))).
    { apply loaded_shapes_In; [now apply in_map | cbn; exact Hp]. }
    assert (Hgid : group_id restored = GidStr "None").
    { unfold restored, loaded_shape, format_shape. cbn. now rewrite Hg. }
    eexists. exists restored. split; [reflexivity|].
    split; [exact Hres|]. split; [exact Hgid|]. split; [reflexivity|].
    unfold getMaxId. f_equal. cbn [labelList set_image_encoded_flag set_labelList].
    apply (getMaxId_loop_raises _ restored Hres).
    + rewrite Hgid. discriminate.
    + rewrite Hgid. intros n. vm_compute. discriminate.
Qed.

Lemma getMaxId_raises_after_save_and_load_witness :
  let s := mkShape "Object" "polygon" GidNone [] [(1, 1)%float] true in
  let w := window_with [s] [] [] false in
  exists w1 restored,
    loadImg (Some (saveLabels w)) w = (Returned tt, w1) /\
    In restored (labelList w1) /\
    group_id restored = GidStr "None" /\
    points restored = points s /\
    getMaxId w1 = (Raised ValueError, w1).
Proof.
  intros s w.
  apply (getMaxId_raises_after_save_and_load w w s).
  - left. reflexivity.
  - reflexivity.
  - discriminate.
Defined.

(** C7. [loadAnno] appends one shape per entry that has points, and
    none for an entry whose [points] array is empty, so every shape it
    adds has at least one point; an entry whose label parses as an
    integer that indexes the category list gets that category as its
    label; and after [loadImg], which empties the list first, every
    shape in the label list has at least one point. *)
Theorem loadAnno_skips_empty_points_and_resolves_labels
  (w : MainWindow) (data : list json_shape) :
  loadAnno data w =
    (Returned tt,
     set_labelList (labelList w ++ loaded_shapes (category_list w) data) w) /\
  (forall s, In s (loaded_shapes (category_list w) data) ->
     points s <> [] /\
     exists r, In r data /\ js_points r <> [] /\
               s = loaded_shape (category_list w) r) /\
  (forall r, js_points r = [] -> load_one r w = (Returned tt, w)) /\
  (forall r i c,
     js_points r <> [] ->
     py_int_of_string (js_label r) = Some i ->
     py_index (category_list w) i = Some c ->
     load_one r w =
       (Returned tt,
        set_labelList
          (labelList w ++ [mkShape c (js_shape_type r) (js_group_id r)
                             (js_flags r) (js_points r) true]) w)) /\
  exists w1,
    loadImg (Some data) w = (Returned tt, w1) /\
    labelList w1 = loaded_shapes (category_list w) data /\
    Forall (fun s => points s <> []) (labelList w1).
Proof.
  split; [apply loadAnno_spec|]. split; [|split; [|split]].
  - intros s Hs. split.
    + exact (proj1 (Forall_forall _ _) (loaded_shapes_have_points _ data) s Hs).
    + induction data as [|q rest IH]; [contradiction|].
      cbn [loaded_shapes] in Hs. destruct (js_points q) eqn:E.
      * destruct (IH Hs) as [r [Hr1 [Hr2 Hr3]]]. exists r. split; [now right|now split].
      * destruct Hs as [<-|Hs].
        -- exists q. split; [now left|]. split; [now rewrite E | reflexivity].
        -- destruct (IH Hs) as [r [Hr1 [Hr2 Hr3]]]. exists r.
           split; [now right|now split].
  - intros r Hr. rewrite load_one_spec. cbn [loaded_shapes]. rewrite Hr.
    now rewrite app_nil_r, set_labelList_same.
  - intros r i c Hne Hi Hc. rewrite load_one_spec. cbn [loaded_shapes].
    unfold loaded_shape, resolve_label. rewrite Hi, Hc.
    destruct (js_points r); [congruence | reflexivity].
  - eexists. rewrite loadImg_spec. split; [reflexivity|]. split; [reflexivity|].
    apply loaded_shapes_have_points.
Qed.

Lemma loadAnno_skips_empty_points_and_resolves_labels_witness :
  let w := window_with [] [] [] false in
  let r := mkJson "1" [(3, 4)%float] (GidStr "7") "" "polygon" [] in
  let e := mkJson "0" [] (GidStr "8") "" "polygon" [] in
  load_one e w = (Returned tt, w) /\
  load_one r w =
    (Returned tt,
     set_labelList [mkShape "dog" "polygon" (GidStr "7") [] [(3, 4)%float] true] w).
Proof.
  intros w r e.
  destruct (loadAnno_skips_empty_points_and_resolves_labels w [e; r])
    as [_ [_ [Hskip [Hres _]]]].
  split.
  - apply Hskip. reflexivity.
  - apply (Hres r 1 "dog"%string); [discriminate | reflexivity | reflexivity].
Defined.

(** ** Choosing a proposal by hand *)

(** C8. Choosing a proposal at a position past the end of the proposal
    list changes nothing: the window, and so the selected mask and the
    proposal list, stay as they were. This holds for the handler at
    position [k] in general and for the four buttons' handlers. *)
Theorem choose_proposal_out_of_range_noop (w : MainWindow) (k : nat) :
  (length (sam_mask_proposal w) <= k)%nat ->
  choose_proposal k w = (Returned tt, w) /\
  nth k [choose_proposal1; choose_proposal2; choose_proposal3; choose_proposal4]
      (ret tt) w = (Returned tt, w).
Proof.
  intros Hk.
  assert (H : choose_proposal k w = (Returned tt, w)).
  { unfold choose_proposal.
    destruct (Nat.ltb_spec k (length (sam_mask_proposal w))); [lia | reflexivity]. }
  split; [exact H|].
  do 4 (destruct k as [|k]; [exact H|]).
  destruct k; reflexivity.
Qed.

Lemma choose_proposal_out_of_range_noop_witness :
  let p := [mkShape "Object" "polygon" (GidInt 0) [] [(1, 1)%float] true] in
  let w := window_with [] p [p; []] false in
  choose_proposal 2 w = (Returned tt, w) /\
  nth 2 [choose_proposal1; choose_proposal2; choose_proposal3; choose_proposal4]
      (ret tt) w = (Returned tt, w).
Proof.
  intros p w.
  apply (choose_proposal_out_of_range_noop w 2).
  cbn. lia.
Defined.

(** Within range the handler selects the proposal at its position. *)
Lemma choose_proposal_in_range (w : MainWindow) (k : nat) :
  (k < length (sam_mask_proposal w))%nat ->
  choose_proposal k w =
  (Returned tt, set_sam_mask (nth k (sam_mask_proposal w) []) w).
Proof.
  intros Hk. unfold choose_proposal.
  destruct (Nat.ltb_spec k (length (sam_mask_proposal w))); [reflexivity | lia].
Qed.

(** ** From a mask to its shapes *)

Lemma Qltb_lt (x y : Q) : Qltb x y = true <-> (x < y)%Q.
Proof.
  unfold Qltb. rewrite negb_true_iff. split.
  - intros H. apply Qnot_le_lt. intros Hle.
    apply Qle_bool_iff in Hle. congruence.
  - intros H. destruct (Qle_bool y x) eqn:E; [|reflexivity].
    apply Qle_bool_iff in E. now apply Qlt_not_le in H.
Qed.

Lemma Qltb_ge (x y : Q) : Qltb x y = false <-> (y <= x)%Q.
Proof.
  unfold Qltb. rewrite negb_false_iff. apply Qle_bool_iff.
Qed.

Lemma discarded_iff (area : contour -> Q) (pl : list contour) (c : contour) :
  discarded area pl c = true <->
  (area c < 100)%Q /\ (1 < length pl)%nat.
Proof.
  unfold discarded. rewrite andb_true_iff, Qltb_lt, Nat.ltb_lt. reflexivity.
Qed.

(** The loop over the contours [l] still to visit, [acc] collected so
    far: the window is never changed, and [getMaxId] is called (and may
    raise) only when a contour passes the test. *)
Lemma mask_shapes_loop (area : contour -> Q) (pl l : list contour) (w : MainWindow) :
  forall acc,
    for_fold l (add_contour area pl) acc w =
    (match filter (fun c => negb (discarded area pl c)) l with
     | [] => Returned acc
     | kept =>
         match getMaxId_loop (labelList w) (-1) with
         | Returned m => Returned (acc ++ map (contour_shape (m + 1)) kept)
         | Raised e => Raised e
         end
     end, w).
Proof.
  induction l as [|c r IH]; intros acc; cbn [for_fold filter].
  - reflexivity.
  - unfold bind at 1. unfold add_contour at 1.
    destruct (discarded area pl c) eqn:Ed; cbn [negb].
    + unfold ret at 1. apply IH.
    + unfold bind, getMaxId, ret.
      destruct (getMaxId_loop (labelList w) (-1)) as [m|e] eqn:Em; [|reflexivity].
      rewrite IH.
      destruct (filter _ r); cbn [map]; now rewrite <- ?app_assoc.
Qed.

Lemma mask_shapes_spec (area : contour -> Q) (pl : list contour) (w : MainWindow) :
  mask_shapes area pl w =
  (match kept_contours area pl with
   | [] => Returned []
   | kept =>
       match getMaxId_loop (labelList w) (-1) with
       | Returned m => Returned (map (contour_shape (m + 1)) kept)
       | Raised e => Raised e
       end
   end, w).
Proof. unfold mask_shapes, kept_contours. now rewrite mask_shapes_loop. Qed.

Lemma mask_shapes_returns (area : contour -> Q) (pl : list contour)
  (w : MainWindow) (m : Z) :
  getMaxId_loop (labelList w) (-1) = Returned m ->
  mask_shapes area pl w =
  (Returned (map (contour_shape (m + 1)) (kept_contours area pl)), w).
Proof.
  intros Hm. rewrite mask_shapes_spec, Hm. now destruct (kept_contours area pl).
Qed.

(** C1. A contour is discarded exactly when its area is below 100 and
    the mask has more than one contour. The shapes of a mask are those
    of the contours not discarded, in order (when none is kept the
    result is empty; otherwise [getMaxId] supplies the group id, and the
    conversion raises when [getMaxId] raises). A mask with one contour keeps it
    whatever its area; in a mask with several, every kept contour has
    area at least 100, and nothing is kept when all are below 100. *)
Theorem mask_contour_filter (contourArea : contour -> Q)
  (points_list : list contour) (w : MainWindow) :
  (forall c, discarded contourArea points_list c = true <->
             (contourArea c < 100)%Q /\ (1 < length points_list)%nat) /\
  (forall c, In c (kept_contours contourArea points_list) <->
             In c points_list /\
             ~ ((contourArea c < 100)%Q /\ (1 < length points_list)%nat)) /\
  mask_shapes contourArea points_list w =
    (match kept_contours contourArea points_list with
     | [] => Returned []
     | kept =>
         match getMaxId_loop (labelList w) (-1) with
         | Returned m => Returned (map (contour_shape (m + 1)) kept)
         | Raised e => Raised e
         end
     end, w) /\
  (forall c, points_list = [c] ->
             kept_contours contourArea points_list = [c]) /\
  ((1 < length points_list)%nat ->
     Forall (fun c => (100 <= contourArea c)%Q)
            (kept_contours contourArea points_list) /\
     ((forall c, In c points_list -> (contourArea c < 100)%Q) ->
      kept_contours contourArea points_list = [])).
Proof.
  split; [intros c; apply discarded_iff|].
  assert (Hin : forall c, In c (kept_contours contourArea points_list) <->
             In c points_list /\
             ~ ((contourArea c < 100)%Q /\ (1 < length points_list)%nat)).
  { intros c. unfold kept_contours. rewrite filter_In, negb_true_iff.
    rewrite <- discarded_iff. destruct (discarded contourArea points_list c);
      intuition congruence. }
  split; [exact Hin|]. split; [apply mask_shapes_spec|]. split.
  - intros c ->. unfold kept_contours, discarded. cbn [filter length].
    cbn [Nat.ltb Nat.leb]. now rewrite andb_false_r.
  - intros Hlen. split.
    + apply Forall_forall. intros c Hc. apply Hin in Hc. destruct Hc as [_ Hc].
      destruct (Qlt_le_dec (contourArea c) 100) as [Hlt|Hle]; [|exact Hle].
      elim Hc. now split.
    + intros Hall. destruct (kept_contours contourArea points_list) as [|c k] eqn:E;
        [reflexivity|].
      assert (Hc : In c (c :: k)) by now left.
      apply Hin in Hc. destruct Hc as [Hc1 Hc2]. elim Hc2. split; [now apply Hall|exact Hlen].
Qed.

(** Scenario D of the spec, on the shoelace area: a 10 by 5 rectangle
    alone is kept; next to a 20 by 15 rectangle it is dropped. *)
Lemma mask_contour_filter_witness :
  kept_contours shoelace_area [rect 0 0 10 5] = [rect 0 0 10 5] /\
  Forall (fun c => (100 <= shoelace_area c)%Q)
         (kept_contours shoelace_area [rect 0 0 10 5; rect 20 20 20 15]) /\
  mask_shapes shoelace_area [rect 0 0 10 5; rect 20 20 20 15]
    (window_with [] [] [] false) =
  (Returned [contour_shape 0 (rect 20 20 20 15)], window_with [] [] [] false).
Proof.
  split; [|split].
  - apply (mask_contour_filter shoelace_area [rect 0 0 10 5]
             (window_with [] [] [] false)).
    reflexivity.
  - apply (mask_contour_filter shoelace_area [rect 0 0 10 5; rect 20 20 20 15]
             (window_with [] [] [] false)).
    cbn. lia.
  - destruct (mask_contour_filter shoelace_area
                [rect 0 0 10 5; rect 20 20 20 15] (window_with [] [] [] false))
      as [_ [_ [H _]]].
    rewrite H. reflexivity.
Defined.

(** ** The default proposal *)

Lemma argmax_loop_spec (l : list Q) :
  forall (best : Q) (bi i : nat),
    let t := argmax_loop best bi i l in
    (t = bi /\ Forall (fun x => (x <= best)%Q) l) \/
    (exists k, t = (i + k)%nat /\ (k < length l)%nat /\
               (best < nth k l 0)%Q /\
               Forall (fun x => (x <= nth k l 0)%Q) l /\
               forall j, (j < k)%nat -> (nth j l 0 < nth k l 0)%Q).
Proof.
  induction l as [|x r IH]; intros best bi i; cbn [argmax_loop].
  - left. split; [reflexivity | constructor].
  - destruct (Qltb best x) eqn:E.
    + apply Qltb_lt in E. right.
      destruct (IH x i (S i)) as [[Ht Hall]|[k [Ht [Hk [Hgt [Hall Hfirst]]]]]].
      * exists 0%nat. cbn [nth length]. repeat split.
        -- rewrite Ht. lia.
        -- lia.
        -- exact E.
        -- constructor; [apply Qle_refl | exact Hall].
        -- intros j Hj. lia.
      * exists (S k). cbn [nth length]. repeat split.
        -- rewrite Ht. lia.
        -- lia.
        -- now apply Qlt_trans with x.
        -- constructor; [now apply Qlt_le_weak | exact Hall].
        -- intros [|j] Hj; cbn [nth]; [exact Hgt | apply Hfirst; lia].
    + apply Qltb_ge in E.
      destruct (IH best bi (S i)) as [[Ht Hall]|[k [Ht [Hk [Hgt [Hall Hfirst]]]]]].
      * left. split; [exact Ht | now constructor].
      * right. exists (S k). cbn [nth length]. repeat split.
        -- rewrite Ht. lia.
        -- lia.
        -- exact Hgt.
        -- constructor; [|exact Hall].
           apply Qlt_le_weak. now apply Qle_lt_trans with best.
        -- intros [|j] Hj; cbn [nth];
             [now apply Qle_lt_trans with best | apply Hfirst; lia].
Qed.

(** [argmax] returns a position of the vector whose score no other
    score exceeds, and the first such position. *)
Lemma argmax_spec (l : list Q) (t : nat) :
  argmax l = Returned t ->
  (t < length l)%nat /\
  (forall j, (j < length l)%nat -> (nth j l 0 <= nth t l 0)%Q) /\
  (forall j, (j < t)%nat -> (nth j l 0 < nth t l 0)%Q).
Proof.
  destruct l as [|x r]; [discriminate|]. cbn [argmax]. intros [= <-].
  destruct (argmax_loop_spec r x 0 1) as [[Ht Hall]|[k [Ht [Hk [Hgt [Hall Hfirst]]]]]];
    rewrite Ht; cbn [length].
  - split; [lia|]. split; [|intros j Hj; lia].
    intros [|j] Hj; cbn [nth]; [apply Qle_refl|].
    apply (proj1 (Forall_forall _ _) Hall). apply nth_In. lia.
  - cbn [Nat.add nth]. split; [lia|]. split.
    + intros [|j] Hj; cbn [nth]; [now apply Qlt_le_weak|].
      apply (proj1 (Forall_forall _ _) Hall). apply nth_In. lia.
    + intros [|j] Hj; cbn [nth]; [exact Hgt | apply Hfirst; lia].
Qed.

Lemma argmax_returns (l : list Q) : l <> [] -> exists t, argmax l = Returned t.
Proof. destruct l; [congruence | eexists; reflexivity]. Qed.

Lemma update_at_length {A : Type} (f : A -> A) (l : list A) :
  forall i, (i < length l)%nat ->
    exists l', update_at i f l = Some l' /\ length l' = length l.
Proof.
  induction l as [|x r IH]; intros i Hi; cbn [length] in Hi; [lia|].
  destruct i as [|j]; cbn [update_at].
  - eexists. split; reflexivity.
  - destruct (IH j) as [l' [Hl' Hlen]]; [lia|].
    rewrite Hl'. eexists. split; [reflexivity|]. cbn [length]. now rewrite Hlen.
Qed.

(** With no more masks than buttons, showing the thumbnails returns and
    changes the buttons only. *)
Lemma show_thumbnails_returns (n : nat) :
  forall (i : nat) (w : MainWindow),
    (i + n <= length (button_proposal_list w))%nat ->
    exists bs,
      for_each (seq i n) show_one w =
        (Returned tt, set_button_proposal_list bs w) /\
      length bs = length (button_proposal_list w).
Proof.
  induction n as [|n IH]; intros i w Hn; cbn [seq for_each].
  - exists (button_proposal_list w). split; [|reflexivity].
    unfold ret. now destruct w.
  - unfold bind at 1. unfold show_one at 1.
    destruct (update_at_length
                (fun b => set_shortcut (py_str_of_int (Z.of_nat i + 1)) (set_icon i b))
                (button_proposal_list w) i) as [bs [Hbs Hlen]]; [lia|].
    rewrite Hbs.
    destruct (IH (S i) (set_button_proposal_list bs w)) as [bs' [Hrun Hlen']].
    { cbn [button_proposal_list set_button_proposal_list]. lia. }
    exists bs'. rewrite Hrun. split; [reflexivity|].
    cbn [button_proposal_list set_button_proposal_list] in Hlen'. lia.
Qed.

Lemma with_masks_same (w : MainWindow) :
  with_masks (sam_mask w) (sam_mask_proposal w) w = w.
Proof. now destruct w. Qed.

Lemma add_mask_spec {Mask : Type} (fc : Mask -> list contour)
  (area : contour -> Q) (t i : nat) (mask : Mask) (w : MainWindow) (m : Z) :
  getMaxId_loop (labelList w) (-1) = Returned m ->
  add_mask fc area t (i, mask) w =
  (Returned tt,
   with_masks (if (i =? t)%nat then shapes_of_mask fc area m mask else sam_mask w)
              (sam_mask_proposal w ++ [shapes_of_mask fc area m mask]) w).
Proof.
  intros Hm. unfold add_mask. unfold bind at 1. cbn [fst snd].
  rewrite (mask_shapes_returns area _ w m Hm).
  fold (shapes_of_mask fc area m mask).
  unfold bind, modify, ret. destruct (i =? t)%nat; now destruct w.
Qed.

Lemma add_masks_spec {Mask : Type} (fc : Mask -> list contour)
  (area : contour -> Q) (t : nat) (m : Z) (masks : list Mask) :
  forall (i : nat) (w : MainWindow),
    getMaxId_loop (labelList w) (-1) = Returned m ->
    for_each (enumerate_from i masks) (add_mask fc area t) w =
    (Returned tt,
     with_masks
       (select_target i t (map (shapes_of_mask fc area m) masks) (sam_mask w))
       (sam_mask_proposal w ++ map (shapes_of_mask fc area m) masks) w).
Proof.
  induction masks as [|mask rest IH]; intros i w Hm;
    cbn [enumerate_from for_each map select_target].
  - unfold ret. now rewrite app_nil_r, with_masks_same.
  - unfold bind at 1. rewrite (add_mask_spec fc area t i mask w m Hm).
    rewrite IH by (now destruct w).
    f_equal. destruct w. cbn. now rewrite <- app_assoc.
Qed.

Lemma select_target_past (t : nat) (props : list (list Shape)) :
  forall (j : nat) (sel : list Shape),
    (t < j)%nat -> select_target j t props sel = sel.
Proof.
  induction props as [|x r IH]; intros j sel Hj; cbn [select_target]; [reflexivity|].
  destruct (Nat.eqb_spec j t); [lia|]. apply IH. lia.
Qed.

Lemma select_target_nth (props : list (list Shape)) :
  forall (i t : nat) (sel : list Shape),
    (i <= t < i + length props)%nat ->
    select_target i t props sel = nth (t - i) props [].
Proof.
  induction props as [|x r IH]; intros i t sel Ht; cbn [length] in Ht; [lia|].
  cbn [select_target].
  destruct (Nat.eqb_spec i t) as [->|Hne].
  - replace (t - t)%nat with 0%nat by lia. cbn [nth].
    apply select_target_past. lia.
  - rewrite IH by lia.
    replace (t - i)%nat with (S (t - S i)) by lia. reflexivity.
Qed.

(** What both handlers do with a prediction of no more masks than there
    are buttons, on a label list where [getMaxId] returns [m]: every
    mask becomes a proposal, in order, and the proposal at the position
    [argmax] finds is selected. *)
Lemma propose_spec {Mask : Type} (fc : Mask -> list contour)
  (area : contour -> Q) (masks : list Mask) (scores : list Q)
  (w : MainWindow) (m : Z) (t : nat) :
  getMaxId_loop (labelList w) (-1) = Returned m ->
  argmax scores = Returned t ->
  (length masks <= length (button_proposal_list w))%nat ->
  exists bs,
    length bs = length (button_proposal_list w) /\
    propose fc area masks scores w =
    (Returned tt,
     with_masks
       (select_target 0 t (map (shapes_of_mask fc area m) masks) (sam_mask w))
       (map (shapes_of_mask fc area m) masks)
       (set_button_proposal_list bs w)).
Proof.
  intros Hm Ht Hlen. unfold propose.
  unfold bind at 1. unfold lift. rewrite Ht.
  unfold bind at 1. unfold show_proposals. cbn [Z.eqb negb].
  destruct (show_thumbnails_returns (length masks) 0 w Hlen) as [bs [Hrun Hbs]].
  rewrite Hrun. exists bs. split; [exact Hbs|].
  unfold bind at 1. unfold modify at 1.
  rewrite (add_masks_spec fc area t m) by (now destruct w).
  reflexivity.
Qed.

(** With more masks than buttons, showing the thumbnails raises
    [IndexError]; the selected mask and the proposals are not touched. *)
Lemma show_thumbnails_raises (n : nat) :
  forall (i : nat) (w : MainWindow),
    (i <= length (button_proposal_list w) < i + n)%nat ->
    exists bs,
      for_each (seq i n) show_one w =
        (Raised IndexError, set_button_proposal_list bs w).
Proof.
  induction n as [|n IH]; intros i w Hn; [lia|]. cbn [seq for_each].
  unfold bind at 1. unfold show_one at 1.
  destruct (Nat.eq_dec i (length (button_proposal_list w))) as [He|Hne].
  - assert (Hnone : forall (A : Type) (f : A -> A) (l : list A),
               update_at (length l) f l = None).
    { intros A f l. induction l as [|x r IHl]; cbn [length update_at];
        [reflexivity | now rewrite IHl]. }
    rewrite He, Hnone. exists (button_proposal_list w). now destruct w.
  - destruct (update_at_length
                (fun b => set_shortcut (py_str_of_int (Z.of_nat i + 1)) (set_icon i b))
                (button_proposal_list w) i) as [bs [Hbs Hlen]]; [lia|].
    rewrite Hbs.
    destruct (IH (S i) (set_button_proposal_list bs w)) as [bs' Hrun].
    { cbn [button_proposal_list set_button_proposal_list]. lia. }
    exists bs'. rewrite Hrun. reflexivity.
Qed.

Lemma handlers_run_propose {Mask : Type} (fc : Mask -> list contour)
  (area : contour -> Q) (masks : list Mask) (scores : list Q) (w : MainWindow) :
  predictor_loaded w = true ->
  current_img w <> ""%string ->
  (currentBox w <> None ->
   clickManualSegBBox fc area (masks, scores) w =
   propose fc area masks scores (set_image_encoded_flag true w)) /\
  (~ (currentPos w = None /\ currentNeg w = None) ->
   clickManualSegBox fc area (masks, scores) w =
   propose fc area masks scores (set_image_encoded_flag true w)).
Proof.
  intros Hp Hi.
  assert (Hg : negb (predictor_loaded w) || (current_img w =? "")%string = false).
  { rewrite Hp. cbn [negb orb]. now apply String.eqb_neq. }
  split.
  - intros Hb. unfold clickManualSegBBox. cbn [fst snd].
    destruct (currentBox w); [now rewrite Hg | congruence].
  - intros Hc. unfold clickManualSegBox. cbn [fst snd].
    destruct (currentPos w), (currentNeg w); rewrite ?Hg; try reflexivity.
    elim Hc. now split.
Qed.

(** C2, as the code has it. Past their guards both handlers run
    [propose] on the prediction. With at least one mask, no more masks
    than proposal buttons, as many scores as masks, and a label list on
    which [getMaxId] returns, it returns: [argmax] finds the first
    position holding the largest score of the whole vector, every mask
    becomes a proposal in order, the proposal at that position is the
    selected mask, and each proposal can be chosen by its button's
    handler. *)
Theorem default_proposal_is_argmax {Mask : Type} (findContours : Mask -> list contour)
  (contourArea : contour -> Q) (masks : list Mask) (scores : list Q)
  (w : MainWindow) (m : Z) :
  predictor_loaded w = true ->
  current_img w <> ""%string ->
  getMaxId_loop (labelList w) (-1) = Returned m ->
  length masks = length scores ->
  (1 <= length masks <= length (button_proposal_list w))%nat ->
  let w0 := set_image_encoded_flag true w in
  (currentBox w <> None ->
   clickManualSegBBox findContours contourArea (masks, scores) w =
   propose findContours contourArea masks scores w0) /\
  (~ (currentPos w = None /\ currentNeg w = None) ->
   clickManualSegBox findContours contourArea (masks, scores) w =
   propose findContours contourArea masks scores w0) /\
  exists t w',
    argmax scores = Returned t /\
    (t < length scores)%nat /\
    (forall j, (j < length scores)%nat -> (nth j scores 0 <= nth t scores 0)%Q) /\
    (forall j, (j < t)%nat -> (nth j scores 0 < nth t scores 0)%Q) /\
    propose findContours contourArea masks scores w0 = (Returned tt, w') /\
    labelList w' = labelList w /\
    sam_mask_proposal w' = map (shapes_of_mask findContours contourArea m) masks /\
    sam_mask w' = nth t (sam_mask_proposal w') [] /\
    (forall k, (k < length masks)%nat ->
       choose_proposal k w' =
       (Returned tt, set_sam_mask (nth k (sam_mask_proposal w') []) w')).
Proof.
  intros Hp Hi Hm Hlen Hn w0.
  destruct (handlers_run_propose findContours contourArea masks scores w Hp Hi)
    as [HB HC].
  split; [exact HB|]. split; [exact HC|].
  destruct (argmax_returns scores) as [t Ht].
  { destruct scores; [cbn in Hlen; lia | discriminate]. }
  destruct (argmax_spec scores t Ht) as [Ht1 [Ht2 Ht3]].
  destruct (propose_spec findContours contourArea masks scores w0 m t)
    as [bs [Hbs Hrun]]; [exact Hm | exact Ht | exact (proj2 Hn) |].
  exists t. eexists. split; [exact Ht|]. split; [exact Ht1|].
  split; [exact Ht2|]. split; [exact Ht3|]. split; [exact Hrun|].
  split; [reflexivity|]. split; [reflexivity|].
  split.
  - cbn [with_masks sam_mask sam_mask_proposal set_sam_mask set_sam_mask_proposal].
    rewrite select_target_nth; [now rewrite Nat.sub_0_r|].
    rewrite length_map. lia.
  - intros k Hk. apply choose_proposal_in_range.
    cbn [with_masks sam_mask_proposal set_sam_mask set_sam_mask_proposal].
    now rewrite length_map.
Qed.

Lemma default_proposal_is_argmax_witness :
  exists t w',
    argmax three_scores = Returned t /\
    propose (fun mask : list contour => mask) shoelace_area three_masks three_scores
      (set_image_encoded_flag true (window_with [] [] [] false))
    = (Returned tt, w') /\
    sam_mask w' = nth t (sam_mask_proposal w') [].
Proof.
  destruct (default_proposal_is_argmax (fun mask : list contour => mask)
              shoelace_area three_masks three_scores
              (window_with [] [] [] false) (-1))
    as [_ [_ [t [w' [Ht [_ [_ [_ [Hrun [_ [_ [Hsel _]]]]]]]]]]]].
  - reflexivity.
  - discriminate.
  - reflexivity.
  - reflexivity.
  - cbn. lia.
  - exists t, w'. split; [exact Ht|]. split; [exact Hrun | exact Hsel].
Defined.

(** Scenario B of the spec: the scores 0.2, 0.9, 0.5 select position 1. *)
Lemma argmax_scenario_B : argmax three_scores = Returned 1%nat.
Proof. reflexivity. Qed.

(** C2, as the spec states it, fails. With five masks, the best score at
    position 4, the handler raises [IndexError] while laying out the
    thumbnails; no proposal is stored and the selected mask is not the
    shapes of the mask at position 4. *)
Lemma five_masks_raise_IndexError :
  argmax five_scores = Returned 4%nat /\
  shapes_of_mask (fun mask : list contour => mask) shoelace_area (-1)
    (nth 4 five_masks []) = [contour_shape 0 (rect 0 0 60 20)] /\
  exists w1,
    clickManualSegBBox (fun mask : list contour => mask) shoelace_area
      (five_masks, five_scores) (window_with [] [] [] false)
    = (Raised IndexError, w1) /\
    sam_mask w1 = [] /\
    sam_mask_proposal w1 = [].
Proof.
  split; [reflexivity|]. split; [vm_compute; reflexivity|].
  eexists. split; [vm_compute; reflexivity|]. split; reflexivity.
Qed.

(** ** Committing the selected mask *)

Lemma add_labels_spec (f : Shape -> Shape) (masks : list Shape) :
  forall w,
    for_each masks (fun s => addLabel (f s)) w =
    (Returned tt, set_labelList (labelList w ++ map f masks) w).
Proof.
  induction masks as [|s r IH]; intros w; cbn [for_each map].
  - unfold ret. now rewrite app_nil_r, set_labelList_same.
  - unfold bind at 1. unfold addLabel at 1, modify. rewrite IH.
    cbn [labelList set_labelList]. now rewrite <- app_assoc.
Qed.

(** The commit branch: when [getMaxId] returns [m] and the dialog (if
    asked) answers with a 3- or 4-tuple, every shape of the selected mask
    is stamped and appended. *)
Lemma commit_sam_mask_returns (xx : popUp_result) (w : MainWindow) (m : Z)
  (text : option string) (g : gid) :
  getMaxId_loop (labelList w) (-1) = Returned m ->
  dialog_answer w xx m = Returned (text, g) ->
  commit_sam_mask xx w =
  (Returned tt,
   set_labelList
     (labelList w ++
      map (stamp (match text with Some l => l | None => "Object"%string end)
                 (match g with GidInt z => GidInt z | _ => GidInt (m + 1) end))
          (sam_mask w)) w).
Proof.
  unfold dialog_answer. intros Hm Ha.
  unfold commit_sam_mask. unfold bind at 1. unfold getMaxId at 1. rewrite Hm.
  unfold bind at 1. unfold gets at 1.
  unfold bind at 1.
  assert (Hlg : (if class_on_flag w
                 then lift (unpack xx)
                 else ret (Some "Object"%string, GidInt (m + 1))) w
                = (Returned (text, g), w)).
  { destruct (class_on_flag w); unfold lift, ret; now rewrite Ha. }
  rewrite Hlg. cbn [fst snd].
  unfold bind at 1.
  assert (Hg : (if not_int g
                then bind getMaxId (fun m0 => ret (GidInt (m0 + 1)))
                else ret g) w
               = (Returned (match g with GidInt z => GidInt z | _ => GidInt (m + 1) end), w)).
  { destruct g; cbn [not_int]; unfold bind, getMaxId, ret; now rewrite ?Hm. }
  rewrite Hg.
  unfold bind at 1. unfold gets at 1.
  apply (add_labels_spec
           (fun s => set_group_id
                       (match g with GidInt z => GidInt z | _ => GidInt (m + 1) end)
                       (set_label (match text with Some l => l | None => "Object"%string end) s))).
Qed.

(** When [getMaxId] raises, or the dialog's answer cannot be unpacked,
    the commit branch raises before it has changed anything. *)
Lemma commit_sam_mask_raises (xx : popUp_result) (w : MainWindow) :
  (forall m, getMaxId_loop (labelList w) (-1) = Returned m ->
             forall tg, dialog_answer w xx m <> Returned tg) ->
  exists e, commit_sam_mask xx w = (Raised e, w).
Proof.
  intros H. unfold commit_sam_mask. unfold bind at 1. unfold getMaxId at 1.
  destruct (getMaxId_loop (labelList w) (-1)) as [m|e] eqn:Em;
    [|now exists e].
  specialize (H m eq_refl). unfold dialog_answer in H.
  unfold bind at 1. unfold gets at 1. unfold bind at 1.
  destruct (class_on_flag w).
  - unfold lift. destruct (unpack xx) as [tg|e]; [now elim (H tg) | now exists e].
  - now elim (H (Some "Object"%string, GidInt (m + 1))).
Qed.

Lemma addSamMask_empty (xx : popUp_result) (w : MainWindow) :
  sam_mask w = [] -> addSamMask xx w = (Returned tt, cleared w).
Proof.
  intros He. unfold addSamMask. unfold bind at 1. unfold gets at 1.
  rewrite He. reflexivity.
Qed.

Lemma addSamMask_commits (xx : popUp_result) (w : MainWindow) (m : Z)
  (text : option string) (g : gid) :
  sam_mask w <> [] ->
  getMaxId_loop (labelList w) (-1) = Returned m ->
  dialog_answer w xx m = Returned (text, g) ->
  addSamMask xx w =
  (Returned tt,
   cleared
     (set_labelList
        (labelList w ++
         map (stamp (match text with Some l => l | None => "Object"%string end)
                    (match g with GidInt z => GidInt z | _ => GidInt (m + 1) end))
             (sam_mask w)) w)).
Proof.
  intros Hne Hm Ha. unfold addSamMask. unfold bind at 1. unfold gets at 1.
  destruct (sam_mask w) as [|s r] eqn:Es; [congruence|].
  cbn [length Nat.ltb Nat.leb]. unfold bind at 1.
  rewrite (commit_sam_mask_returns xx w m text g Hm Ha). rewrite Es. reflexivity.
Qed.

(** With a non-empty selected mask, [addSamMask] either commits and
    clears, or raises before it has changed anything. *)
Lemma addSamMask_nonempty_cases (xx : popUp_result) (w : MainWindow) :
  sam_mask w <> [] ->
  (exists m text g,
     getMaxId_loop (labelList w) (-1) = Returned m /\
     dialog_answer w xx m = Returned (text, g) /\
     addSamMask xx w =
     (Returned tt,
      cleared
        (set_labelList
           (labelList w ++
            map (stamp (match text with Some l => l | None => "Object"%string end)
                       (match g with GidInt z => GidInt z | _ => GidInt (m + 1) end))
                (sam_mask w)) w))) \/
  (exists e, addSamMask xx w = (Raised e, w)).
Proof.
  intros Hne.
  destruct (getMaxId_loop (labelList w) (-1)) as [m|e] eqn:Em.
  - destruct (dialog_answer w xx m) as [[text g]|e] eqn:Ea.
    + left. exists m, text, g. split; [reflexivity|]. split; [exact Ea|].
      now apply addSamMask_commits.
    + right. destruct (commit_sam_mask_raises xx w) as [e' He'].
      { intros m' Hm' tg. rewrite Em in Hm'. injection Hm' as <-.
        rewrite Ea. discriminate. }
      exists e'. unfold addSamMask. unfold bind at 1. unfold gets at 1.
      destruct (sam_mask w); [congruence|].
      cbn [length Nat.ltb Nat.leb]. unfold bind at 1. now rewrite He'.
  - right. destruct (commit_sam_mask_raises xx w) as [e' He'].
    { intros m' Hm'. rewrite Em in Hm'. discriminate. }
    exists e'. unfold addSamMask. unfold bind at 1. unfold gets at 1.
    destruct (sam_mask w); [congruence|].
    cbn [length Nat.ltb Nat.leb]. unfold bind at 1. now rewrite He'.
Qed.







(* ================================================================== *)
(** * Further properties *)

(** ** Group ids *)

Lemma getMaxId_loop_returns_int_like (items : list Shape) :
  forall m0 m, getMaxId_loop items m0 = Returned m -> Forall int_like items.
Proof.
  induction items as [|s r IH]; intros m0 m H; [constructor|].
  cbn [getMaxId_loop] in H.
  destruct (group_id s) as [|z|str] eqn:Eg.
  - constructor; [now left | exact (IH _ _ H)].
  - constructor; [right; exists z; now rewrite Eg | exact (IH _ _ H)].
  - destruct (py_int (GidStr str)) as [n|e] eqn:Ei; [|discriminate].
    constructor; [right; exists n; now rewrite Eg | exact (IH _ _ H)].
Qed.

Lemma getMaxId_loop_raises_ValueError (items : list Shape) :
  forall m0 e, getMaxId_loop items m0 = Raised e -> e = ValueError.
Proof.
  induction items as [|s r IH]; intros m0 e H; [discriminate|].
  cbn [getMaxId_loop] in H.
  destruct (group_id s) as [|z|str] eqn:Eg.
  - exact (IH _ _ H).
  - exact (IH _ _ H).
  - destruct (py_int (GidStr str)) as [n|e'] eqn:Ei; [exact (IH _ _ H)|].
    injection H as <-. exact (py_int_raises_ValueError _ _ Ei).
Qed.

(** X1. [getMaxId] returns exactly when every group id in the label list
    is [None] or something [int()] accepts; otherwise it raises
    [ValueError]. Either way the window is left as it was. *)
Theorem getMaxId_returns_iff_int_like (w : MainWindow) :
  ((exists m, getMaxId w = (Returned m, w)) <-> Forall int_like (labelList w)) /\
  (forall e w', getMaxId w = (Raised e, w') -> e = ValueError) /\
  snd (getMaxId w) = w.
Proof.
  unfold getMaxId. split; [split|split].
  - intros [m H]. injection H as H.
    exact (getMaxId_loop_returns_int_like _ _ _ H).
  - intros H. eexists. now rewrite (getMaxId_loop_int_like _ H (-1)).
  - intros e w' H. injection H as H _.
    exact (getMaxId_loop_raises_ValueError _ _ _ H).
  - reflexivity.
Qed.

Lemma known_ids_In (items : list Shape) (n : Z) :
  In n (known_ids items) <->
  exists s, In s items /\ gid_value (group_id s) = Some n.
Proof.
  unfold gid_value. induction items as [|s r IH]; cbn [known_ids In].
  - split; [contradiction | intros [s [[] _]]].
  - destruct (group_id s) as [|z|str] eqn:Eg.
    + rewrite IH. split.
      * intros [t [Ht Hv]]. exists t. split; [now right | exact Hv].
      * intros [t [[<-|Ht] Hv]]; [rewrite Eg in Hv; discriminate|].
        exists t. now split.
    + cbn [py_int In]. rewrite IH. split.
      * intros [<-|[t [Ht Hv]]].
        -- exists s. split; [now left | now rewrite Eg].
        -- exists t. split; [now right | exact Hv].
      * intros [t [[<-|Ht] Hv]].
        -- rewrite Eg in Hv. cbn in Hv. injection Hv as <-. now left.
        -- right. exists t. now split.
    + destruct (py_int (GidStr str)) as [k|e] eqn:Ei.
      * cbn [In]. rewrite IH. split.
        -- intros [<-|[t [Ht Hv]]].
           ++ exists s. split; [now left | now rewrite Eg, Ei].
           ++ exists t. split; [now right | exact Hv].
        -- intros [t [[<-|Ht] Hv]].
           ++ rewrite Eg, Ei in Hv. injection Hv as <-. now left.
           ++ right. exists t. now split.
      * rewrite IH. split.
        -- intros [t [Ht Hv]]. exists t. split; [now right | exact Hv].
        -- intros [t [[<-|Ht] Hv]]; [rewrite Eg, Ei in Hv; discriminate|].
           exists t. now split.
Qed.

Lemma fold_max_spec (l : list Z) :
  (forall n, In n l -> n <= fold_right Z.max (-1) l) /\
  (fold_right Z.max (-1) l = -1 \/ In (fold_right Z.max (-1) l) l).
Proof.
  induction l as [|x r [IH1 IH2]]; cbn [fold_right In].
  - split; [contradiction | now left].
  - split.
    + intros n [<-|Hn]; [lia | specialize (IH1 n Hn); lia].
    + destruct (Z.max_spec x (fold_right Z.max (-1) r)) as [[_ ->]|[_ ->]].
      * destruct IH2 as [->|H]; [now left | right; now right].
      * right. now left.
Qed.

(** X2. When [getMaxId] returns [m], [m] is at least [-1] and at least
    every group id in the label list, it is [-1] or the id of some shape
    there, and so [m + 1], the id given to the next object, is the id of
    no shape in the list. *)
Theorem getMaxId_is_largest_group_id (w : MainWindow) (m : Z) :
  getMaxId w = (Returned m, w) ->
  -1 <= m /\
  (forall s n, In s (labelList w) -> gid_value (group_id s) = Some n -> n <= m) /\
  (m = -1 \/ exists s, In s (labelList w) /\ gid_value (group_id s) = Some m) /\
  (forall s, In s (labelList w) -> gid_value (group_id s) <> Some (m + 1)).
Proof.
  unfold getMaxId. intros H. injection H as H.
  pose proof (getMaxId_loop_returns_int_like _ _ _ H) as Hil.
  rewrite (getMaxId_loop_int_like _ Hil (-1)) in H by lia.
  injection H as H.
  pose proof (known_ids_lower_bound (labelList w)) as Hlow.
  destruct (fold_max_spec (known_ids (labelList w))) as [Hmax Hatt].
  assert (Hm : m = fold_right Z.max (-1) (known_ids (labelList w))) by lia.
  assert (Hub : forall s n, In s (labelList w) ->
                gid_value (group_id s) = Some n -> n <= m).
  { intros s n Hs Hv. rewrite Hm. apply Hmax. apply known_ids_In. now exists s. }
  split; [lia|]. split; [exact Hub|]. split.
  - destruct Hatt as [Ha|Ha]; [left; lia|].
    right. rewrite <- Hm in Ha. now apply known_ids_In.
  - intros s Hs Hv. specialize (Hub s (m + 1) Hs Hv). lia.
Qed.

Lemma getMaxId_is_largest_group_id_witness :
  let w := window_with
             [ mkShape "a" "polygon" (GidInt 0) [] [] true;
               mkShape "b" "polygon" GidNone [] [] true;
               mkShape "c" "polygon" (GidStr "5") [] [] true ]%string
             [] [] false in
  -1 <= 5 /\
  (5 = -1 \/ exists s, In s (labelList w) /\ gid_value (group_id s) = Some 5).
Proof.
  intros w.
  destruct (getMaxId_is_largest_group_id w 5) as [H1 [_ [H3 _]]];
    [reflexivity | split; assumption].
Defined.

(** ** Committing: what the label list gains *)





(** X4. Whatever the dialog answers and whether it returns or raises,
    [addSamMask] keeps every shape already in the label list, in place:
    the new list is the old one followed by the shapes added. The added
    shapes are none, or one per shape of the selected mask with that
    shape's points, type and flags: only label and group id are
    stamped. *)
Theorem addSamMask_extends_label_list (xx : popUp_result) (w : MainWindow) :
  exists added,
    labelList (snd (addSamMask xx w)) = labelList w ++ added /\
    (added = [] \/
     (fst (addSamMask xx w) = Returned tt /\
      map points added = map points (sam_mask w) /\
      map shape_type added = map shape_type (sam_mask w) /\
      map flags added = map flags (sam_mask w) /\
      map closed added = map closed (sam_mask w))).
Proof.
  destruct (sam_mask w) as [|s r] eqn:Es.
  - exists []. rewrite (addSamMask_empty xx w Es). split; [|now left].
    cbn. now rewrite app_nil_r.
  - destruct (addSamMask_nonempty_cases xx w)
      as [[m [text [g [_ [_ Hc]]]]]|[e He]]; [rewrite Es; discriminate | |].
    + eexists. rewrite Hc. split; [reflexivity|]. right.
      split; [reflexivity|]. rewrite Es, !map_map. repeat split.
    + exists []. rewrite He. split; [|now left]. cbn. now rewrite app_nil_r.
Qed.

(** ** What a prompt leaves alone *)

Lemma with_prompt_state_same (w : MainWindow) :
  with_prompt_state (button_proposal_list w) (sam_mask w) (sam_mask_proposal w)
    (image_encoded_flag w) w = w.
Proof. now destruct w. Qed.

Lemma tops_unchanged {A : Type} (c : M A) :
  (forall w, snd (c w) = w) -> touches_only_prompt_state c.
Proof.
  intros H w. exists (button_proposal_list w), (sam_mask w),
    (sam_mask_proposal w), (image_encoded_flag w).
  now rewrite H, with_prompt_state_same.
Qed.

Lemma tops_bind {A B : Type} (c : M A) (k : A -> M B) :
  touches_only_prompt_state c ->
  (forall a, touches_only_prompt_state (k a)) ->
  touches_only_prompt_state (bind c k).
Proof.
  intros Hc Hk w. unfold bind. destruct (Hc w) as [bs [sel [props [enc H]]]].
  destruct (c w) as [[a|e] w1]; cbn [snd] in H; subst w1.
  - destruct (Hk a (with_prompt_state bs sel props enc w))
      as [bs' [sel' [props' [enc' H']]]].
    exists bs', sel', props', enc'. now rewrite H'.
  - now exists bs, sel, props, enc.
Qed.

Lemma tops_for_each {X : Type} (xs : list X) (body : X -> M unit) :
  (forall x, touches_only_prompt_state (body x)) ->
  touches_only_prompt_state (for_each xs body).
Proof.
  intros Hb. induction xs as [|x r IH]; cbn [for_each].
  - now apply tops_unchanged.
  - apply tops_bind; [apply Hb | intros _; exact IH].
Qed.

Lemma tops_for_fold {X S : Type} (xs : list X) (body : X -> S -> M S) :
  (forall x acc, touches_only_prompt_state (body x acc)) ->
  forall acc, touches_only_prompt_state (for_fold xs body acc).
Proof.
  intros Hb. induction xs as [|x r IH]; intros acc; cbn [for_fold].
  - now apply tops_unchanged.
  - apply tops_bind; [apply Hb | intros acc'; apply IH].
Qed.

Lemma tops_set_sam_mask (v : list Shape) :
  touches_only_prompt_state (modify (set_sam_mask v)).
Proof.
  intros w. exists (button_proposal_list w), v, (sam_mask_proposal w),
    (image_encoded_flag w). now destruct w.
Qed.

Lemma tops_set_sam_mask_proposal (f : MainWindow -> list (list Shape)) :
  touches_only_prompt_state
    (modify (fun w => set_sam_mask_proposal (f w) w)).
Proof.
  intros w. exists (button_proposal_list w), (sam_mask w), (f w),
    (image_encoded_flag w). now destruct w.
Qed.

Lemma tops_show_one (i : nat) : touches_only_prompt_state (show_one i).
Proof.
  intros w. unfold show_one. destruct (update_at i _ (button_proposal_list w)) as [bs|].
  - exists bs, (sam_mask w), (sam_mask_proposal w), (image_encoded_flag w).
    now destruct w.
  - cbn [snd]. exists (button_proposal_list w), (sam_mask w),
      (sam_mask_proposal w), (image_encoded_flag w).
    now rewrite with_prompt_state_same.
Qed.

Lemma tops_show_proposals (n : nat) (flag : Z) :
  touches_only_prompt_state (show_proposals n flag).
Proof.
  unfold show_proposals. destruct (negb (flag =? 1)).
  - apply tops_for_each. apply tops_show_one.
  - intros w. exists (reset_buttons 0 (button_proposal_list w)), (sam_mask w),
      (sam_mask_proposal w), (image_encoded_flag w). now destruct w.
Qed.

Lemma tops_propose {Mask : Type} (fc : Mask -> list contour)
  (area : contour -> Q) (masks : list Mask) (scores : list Q) :
  touches_only_prompt_state (propose fc area masks scores).
Proof.
  unfold propose. apply tops_bind; [now apply tops_unchanged|]. intros t.
  apply tops_bind; [apply tops_show_proposals|]. intros _.
  apply tops_bind; [apply (tops_set_sam_mask_proposal (fun _ => []))|]. intros _.
  apply tops_for_each. intros im. unfold add_mask.
  apply tops_bind.
  - unfold mask_shapes. apply tops_for_fold. intros c acc. unfold add_contour.
    destruct (discarded area _ c); [now apply tops_unchanged|].
    apply tops_bind; [now apply tops_unchanged|].
    intros m. now apply tops_unchanged.
  - intros tmp. apply tops_bind.
    + destruct (fst im =? t)%nat; [apply tops_set_sam_mask | now apply tops_unchanged].
    + intros _. apply (tops_set_sam_mask_proposal
                         (fun w => sam_mask_proposal w ++ [tmp])).
Qed.

(** X5. A prompt, whatever the predictor answers and whether the handler
    returns or raises, changes nothing but the proposal buttons, the
    selected mask, the proposals and the image-encoded flag: the label
    list, the prompt itself, the categories, the class switch and the
    actions stay as they were. Without a loaded model, without an image
    or without a prompt of its kind, the handler returns without
    changing anything. *)
Theorem prompt_handlers_frame {Mask : Type} (findContours : Mask -> list contour)
  (contourArea : contour -> Q) (prediction : list Mask * list Q)
  (w : MainWindow) :
  (exists bs sel props encoded,
     snd (clickManualSegBBox findContours contourArea prediction w)
     = with_prompt_state bs sel props encoded w) /\
  (exists bs sel props encoded,
     snd (clickManualSegBox findContours contourArea prediction w)
     = with_prompt_state bs sel props encoded w) /\
  (predictor_loaded w = false \/ current_img w = ""%string \/ currentBox w = None ->
   clickManualSegBBox findContours contourArea prediction w = (Returned tt, w)) /\
  (predictor_loaded w = false \/ current_img w = ""%string \/
   (currentPos w = None /\ currentNeg w = None) ->
   clickManualSegBox findContours contourArea prediction w = (Returned tt, w)).
Proof.
  assert (Hsame : exists bs sel props encoded,
             w = with_prompt_state bs sel props encoded w).
  { exists (button_proposal_list w), (sam_mask w), (sam_mask_proposal w),
      (image_encoded_flag w). now rewrite with_prompt_state_same. }
  assert (Hrun : exists bs sel props encoded,
             snd (propose findContours contourArea (fst prediction) (snd prediction)
                    (set_image_encoded_flag true w))
             = with_prompt_state bs sel props encoded w).
  { destruct (tops_propose findContours contourArea (fst prediction)
                (snd prediction) (set_image_encoded_flag true w))
      as [bs [sel [props [enc H]]]].
    exists bs, sel, props, enc. rewrite H. reflexivity. }
  split; [|split; [|split]].
  - unfold clickManualSegBBox. destruct (currentBox w); [|exact Hsame].
    destruct (negb (predictor_loaded w) || (current_img w =? "")%string);
      [exact Hsame | exact Hrun].
  - unfold clickManualSegBox.
    destruct (currentPos w), (currentNeg w);
      try exact Hsame;
      (destruct (negb (predictor_loaded w) || (current_img w =? "")%string);
       [exact Hsame | exact Hrun]).
  - intros H. unfold clickManualSegBBox.
    destruct (currentBox w) eqn:Eb; [|reflexivity].
    destruct H as [H|[H|H]]; [rewrite H | rewrite H | discriminate];
      cbn [negb orb]; [reflexivity|].
    now rewrite orb_true_r.
  - intros H. unfold clickManualSegBox.
    destruct H as [H|[H|[H1 H2]]].
    + rewrite H. cbn [negb orb]. now destruct (currentPos w), (currentNeg w).
    + rewrite H. rewrite orb_true_r. now destruct (currentPos w), (currentNeg w).
    + now rewrite H1, H2.
Qed.

(** ** The proposal buttons *)

Lemma update_at_nth_error {A : Type} (f : A -> A) (l : list A) :
  forall i l', update_at i f l = Some l' ->
    length l' = length l /\
    forall k, nth_error l' k =
              if (k =? i)%nat then option_map f (nth_error l k) else nth_error l k.
Proof.
  induction l as [|x r IH]; intros i l' H; [destruct i; discriminate|].
  destruct i as [|j]; cbn [update_at] in H.
  - injection H as <-. split; [reflexivity|]. now intros [|k].
  - destruct (update_at j f r) as [r'|] eqn:E; [|discriminate].
    injection H as <-. destruct (IH j r' E) as [Hl Hn].
    split; [cbn [length]; now rewrite Hl|].
    intros [|k]; cbn [nth_error]; [reflexivity | apply Hn].
Qed.

Lemma reset_buttons_spec (bs : list Button) :
  forall from, length (reset_buttons from bs) = length bs /\
               shortcuts_ok from (reset_buttons from bs).
Proof.
  induction bs as [|b r IH]; intros from; cbn [reset_buttons length].
  - split; [reflexivity|]. intros [|k] b' H; discriminate.
  - destruct (IH (S from)) as [Hl Hs]. split; [now rewrite Hl|].
    intros [|k] b' H; cbn [nth_error] in H.
    + injection H as <-. cbn [reset_button btn_shortcut].
      now rewrite Nat.add_0_r.
    + rewrite (Hs k b' H). do 3 f_equal. lia.
Qed.

Lemma show_one_shortcuts (i : nat) (w : MainWindow) :
  length (button_proposal_list (snd (show_one i w)))
  = length (button_proposal_list w) /\
  (shortcuts_ok 0 (button_proposal_list w) ->
   shortcuts_ok 0 (button_proposal_list (snd (show_one i w)))).
Proof.
  unfold show_one.
  destruct (update_at i _ (button_proposal_list w)) as [bs|] eqn:E;
    [|now split].
  destruct (update_at_nth_error _ _ _ _ E) as [Hl Hn]. cbn. split; [exact Hl|].
  intros Hok k b Hk. rewrite Hn in Hk.
  destruct (Nat.eqb_spec k i) as [->|Hne].
  - destruct (nth_error (button_proposal_list w) i); [|discriminate].
    injection Hk as <-. reflexivity.
  - now apply Hok.
Qed.

Lemma show_thumbnails_shortcuts (n : nat) :
  forall (i : nat) (w : MainWindow),
    length (button_proposal_list (snd (for_each (seq i n) show_one w)))
    = length (button_proposal_list w) /\
    (shortcuts_ok 0 (button_proposal_list w) ->
     shortcuts_ok 0
       (button_proposal_list (snd (for_each (seq i n) show_one w)))).
Proof.
  induction n as [|n IH]; intros i w; cbn [seq for_each].
  - cbn. now split.
  - unfold bind. destruct (show_one_shortcuts i w) as [Hl Hs].
    destruct (show_one i w) as [[u|e] w1]; cbn [snd] in *.
    + destruct (IH (S i) w1) as [IHl IHs]. split; [now rewrite IHl|].
      intros Hok. apply IHs. now apply Hs.
    + now split.
Qed.

(** X6. [show_proposals] never changes the number of buttons, and the
    shortcut of the button at position [k] stays the number [k + 1]:
    laying out thumbnails keeps that (even when it raises for want of a
    button), and the reset establishes it whatever the buttons were. *)
Theorem show_proposals_keeps_shortcuts (n_masks : nat) (flag : Z)
  (w : MainWindow) :
  let w' := snd (show_proposals n_masks flag w) in
  length (button_proposal_list w') = length (button_proposal_list w) /\
  (shortcuts_ok 0 (button_proposal_list w) \/ flag = 1 ->
   shortcuts_ok 0 (button_proposal_list w')).
Proof.
  unfold show_proposals. destruct (Z.eqb_spec flag 1) as [->|Hne]; cbn [negb].
  - cbn. destruct (reset_buttons_spec (button_proposal_list w) 0) as [Hl Hs].
    split; [exact Hl | intros _; exact Hs].
  - destruct (show_thumbnails_shortcuts n_masks 0 w) as [Hl Hs].
    split; [exact Hl|]. intros [H|H]; [now apply Hs | contradiction].
Qed.

Lemma show_proposals_keeps_shortcuts_witness :
  shortcuts_ok 0
    (button_proposal_list
       (snd (show_proposals 5 0 (window_with [] [] [] false)))).
Proof.
  apply (show_proposals_keeps_shortcuts 5 0 (window_with [] [] [] false)).
  left. intros k b H.
  do 4 (destruct k as [|k]; [injection H as <-; reflexivity|]).
  destruct k; discriminate.
Defined.

(** ** Rejecting, and switching the class dialog *)

Lemma reset_buttons_twice (bs : list Button) :
  forall from, reset_buttons from (reset_buttons from bs) = reset_buttons from bs.
Proof.
  induction bs as [|b r IH]; intros from; cbn [reset_buttons]; [reflexivity|].
  now rewrite IH.
Qed.

(** X7. [cleanPrompt] always returns; it drops the prompt, the selected
    mask and the proposals, enables the edit action, and leaves the
    label list and the save action as they were. Running it again
    changes nothing more, and an accept right after it cannot raise: it
    commits nothing and only enables the save action. *)
Theorem cleanPrompt_then_accept (w : MainWindow) :
  exists w',
    cleanPrompt w = (Returned tt, w') /\
    labelList w' = labelList w /\
    save_enabled w' = save_enabled w /\
    editMode_enabled w' = true /\
    currentBox w' = None /\ currentPos w' = None /\ currentNeg w' = None /\
    sam_mask w' = [] /\ sam_mask_proposal w' = [] /\
    cleanPrompt w' = (Returned tt, w') /\
    forall xx, addSamMask xx w' = (Returned tt, set_actions true true w').
Proof.
  exists (set_actions (save_enabled w) true
            (set_button_proposal_list (reset_buttons 0 (button_proposal_list w))
               (set_sam_mask_proposal []
                  (set_sam_mask [] (set_prompt None None None w))))).
  split; [reflexivity|].
  do 8 (split; [reflexivity|]). split.
  - unfold cleanPrompt, bind, modify, show_proposals. cbn.
    now rewrite reset_buttons_twice.
  - intros xx. rewrite addSamMask_empty by reflexivity.
    unfold cleared. cbn. now rewrite reset_buttons_twice.
Qed.

(** X8. Switching the class dialog twice gives the window back. With
    the switch off, [addSamMask] does not depend on the dialog's answer
    at all. *)
Theorem clickSwitchClass_twice_and_off (w : MainWindow) :
  (exists w1,
     clickSwitchClass w = (Returned tt, w1) /\
     class_on_flag w1 = negb (class_on_flag w) /\
     clickSwitchClass w1 = (Returned tt, w)) /\
  (class_on_flag w = false ->
   forall xx1 xx2, addSamMask xx1 w = addSamMask xx2 w).
Proof.
  split.
  - unfold clickSwitchClass. destruct w as [? ? ? ? ? ? flag ? ? ? ? ? ? ?].
    destruct flag; eexists; cbn; repeat split.
  - intros Hoff xx1 xx2.
    unfold addSamMask, bind, gets.
    destruct (0 <? length (sam_mask w))%nat; [|reflexivity].
    unfold commit_sam_mask, bind, gets, getMaxId.
    destruct (getMaxId_loop (labelList w) (-1)); [|reflexivity].
    rewrite Hoff. reflexivity.
Qed.

(** ** Point reduction: which points are kept *)

Section AnySquareProperties.

Variable pow2 : float -> outcome float.

Lemma keep_from_subseq (m : float) (todo : list point) :
  forall p kept,
    keep_from_with pow2 m p todo = Returned kept -> subseq kept todo.
Proof.
  induction todo as [|q r IH]; intros p kept; cbn [keep_from_with].
  - intros [= <-]. constructor.
  - destruct (distance_with pow2 q p) as [d|e]; [|discriminate].
    destruct (PrimFloat.ltb (m * 1.5) d).
    + destruct (keep_from_with pow2 m q r) as [k|e] eqn:Ek; [|discriminate].
      intros [= <-]. apply subseq_keep. exact (IH q k Ek).
    + intros H. apply subseq_skip. exact (IH p kept H).
Qed.

Lemma keep_from_spaced (m : float) (todo : list point) :
  forall p kept,
    keep_from_with pow2 m p todo = Returned kept -> spaced pow2 m p kept.
Proof.
  induction todo as [|q r IH]; intros p kept; cbn [keep_from_with].
  - intros [= <-]. exact I.
  - destruct (distance_with pow2 q p) as [d|e] eqn:Ed; [|discriminate].
    destruct (PrimFloat.ltb (m * 1.5) d) eqn:E.
    + destruct (keep_from_with pow2 m q r) as [k|e] eqn:Ek; [|discriminate].
      intros [= <-]. cbn [spaced]. split; [now exists d | exact (IH q k Ek)].
    + apply IH.
Qed.

(** X9. Whatever the platform's [** 2] returns: the points [reducePoint]
    keeps are points of the input, in the input's order: none is
    invented, moved or repeated beyond the input. A list of one point
    is returned as it is. *)
Theorem reduce_points_subsequence (pts kept : list point) :
  reduce_points_with pow2 pts = Returned kept ->
  subseq kept pts /\
  (forall p, pts = [p] -> kept = [p]).
Proof.
  unfold reduce_points_with.
  destruct (get_min_dis_with pow2 pts) as [m|e]; [|discriminate].
  destruct pts as [|p0 rest]; [discriminate|].
  rewrite decimate_keep_from.
  destruct (keep_from_with pow2 m p0 rest) as [k|e] eqn:Ek; [|discriminate].
  intros [= <-]. split.
  - apply subseq_keep. exact (keep_from_subseq m rest p0 k Ek).
  - intros p [= -> ->]. cbn in Ek. now injection Ek as <-.
Qed.

(** X10. Whatever the platform's [** 2] returns: in the result of
    [reducePoint] the first point is the input's first point and every
    point after it is farther than [min_dis * 1.5] from the kept point
    before it, the distance being the one the code computes and
    [min_dis] what [get_min_dis] returned for the input. *)
Theorem reduce_points_spacing (pts kept : list point) (m : float) :
  get_min_dis_with pow2 pts = Returned m ->
  reduce_points_with pow2 pts = Returned kept ->
  exists p0 rest,
    kept = p0 :: rest /\ hd_error pts = Some p0 /\ spaced pow2 m p0 rest.
Proof.
  intros Hm. unfold reduce_points_with. rewrite Hm.
  destruct pts as [|p0 rest]; [discriminate|].
  rewrite decimate_keep_from.
  destruct (keep_from_with pow2 m p0 rest) as [k|e] eqn:Ek; [|discriminate].
  intros [= <-]. exists p0, k. split; [reflexivity|]. split; [reflexivity|].
  exact (keep_from_spaced m rest p0 k Ek).
Qed.

Lemma py_min_cases (a b : float) : py_min a b = a \/ py_min a b = b.
Proof. unfold py_min. destruct (PrimFloat.ltb b a); [now right | now left]. Qed.

Lemma get_min_dis_loop_cases (todo : list point) :
  forall (acc : list point) (q : point) (m0 m : float),
    get_min_dis_loop_with pow2 todo (acc ++ [q]) m0 = Returned m ->
    m = m0 \/
    exists i, (S i < length (q :: todo))%nat /\
              distance_with pow2 (nth (S i) (q :: todo) q) (nth i (q :: todo) q)
              = Returned m.
Proof.
  induction todo as [|p r IH]; intros acc q m0 m; cbn [get_min_dis_loop_with].
  - intros [= <-]. now left.
  - rewrite last_last.
    destruct (distance_with pow2 p q) as [d|e] eqn:Ed; [|discriminate].
    intros H.
    destruct (IH (acc ++ [q]) p _ m H) as [Hm|[i [Hi Hd]]].
    + destruct (py_min_cases m0 d) as [E|E]; rewrite E in Hm.
      * now left.
      * right. exists 0%nat. cbn [nth length]. split; [lia|]. now rewrite Hm.
    + right. exists (S i). cbn [length] in *. split; [lia|].
      change (nth (S (S i)) (q :: p :: r) q) with (nth (S i) (p :: r) q).
      change (nth (S i) (q :: p :: r) q) with (nth i (p :: r) q).
      rewrite (nth_indep (p :: r) q p) by (cbn [length]; lia).
      rewrite (nth_indep (p :: r) q p) by (cbn [length]; lia).
      exact Hd.
Qed.

(** X11. Whatever the platform's [** 2] returns: what [get_min_dis]
    returns is [10000] or the distance, as the code computes it, between
    two neighbouring points of the list; with fewer than two points it
    is [10000]. *)
Theorem get_min_dis_is_a_gap (pts : list point) (m : float) :
  get_min_dis_with pow2 pts = Returned m ->
  (m = 10000%float \/
   exists i p, (S i < length pts)%nat /\
               distance_with pow2 (nth (S i) pts p) (nth i pts p) = Returned m) /\
  ((length pts < 2)%nat -> m = 10000%float).
Proof.
  unfold get_min_dis_with. destruct pts as [|p0 [|p1 r]].
  - intros [= <-]. split; [now left | reflexivity].
  - intros [= <-]. split; [now left | reflexivity].
  - intros H. split; [|cbn [length]; lia].
    destruct (get_min_dis_loop_cases (p1 :: r) [] p0 _ m H) as [Hm|[i [Hi Hd]]].
    + now left.
    + right. exists i, p0. now split.
Qed.

End AnySquareProperties.

Lemma reduce_points_subsequence_witness :
  subseq [ (0, 0); (0, 4); (0, 26) ]%float scenario_C.
Proof.
  apply (reduce_points_subsequence py_square scenario_C
           [ (0, 0); (0, 4); (0, 26) ]%float).
  vm_compute. reflexivity.
Defined.

Lemma reduce_points_spacing_witness :
  exists p0 rest,
    [ (0, 0); (0, 4); (0, 26) ]%float = p0 :: rest /\
    hd_error scenario_C = Some p0 /\ spaced py_square 2%float p0 rest.
Proof.
  apply (reduce_points_spacing py_square scenario_C
           [ (0, 0); (0, 4); (0, 26) ]%float 2%float);
    vm_compute; reflexivity.
Defined.

Lemma get_min_dis_is_a_gap_witness :
  (2%float = 10000%float \/
   exists i p, (S i < length scenario_C)%nat /\
               distance (nth (S i) scenario_C p) (nth i scenario_C p)
               = Returned 2%float) /\
  ((length scenario_C < 2)%nat -> 2%float = 10000%float).
Proof.
  apply (get_min_dis_is_a_gap py_square scenario_C 2%float). vm_compute. reflexivity.
Defined.

(** ** Saving and loading *)

Lemma loaded_shapes_of_saved (cats : list string) (items : list Shape) :
  loaded_shapes cats (map format_shape items) =
  map (reloaded cats) (filter has_points items).
Proof.
  induction items as [|s r IH]; [reflexivity|].
  cbn [map loaded_shapes filter]. unfold has_points at 1.
  unfold format_shape at 1. cbn [js_points].
  destruct (points s) as [|p ps] eqn:Ep; [exact IH|].
  cbn [map]. rewrite IH. reflexivity.
Qed.

(** X12. Saving the label list and loading the file again gives, for
    every shape that has points and in the same order, a shape with the
    same points, type and flags, with [str(group_id)] as group id and
    with the label looked up in the category list; shapes without points
    are gone. *)
Theorem save_then_load (w w0 : MainWindow) :
  exists w1,
    loadImg (Some (saveLabels w)) w0 = (Returned tt, w1) /\
    labelList w1 =
      map (reloaded (category_list w0)) (filter has_points (labelList w)) /\
    map points (labelList w1) = map points (filter has_points (labelList w)) /\
    map shape_type (labelList w1) = map shape_type (filter has_points (labelList w)) /\
    map flags (labelList w1) = map flags (filter has_points (labelList w)) /\
    map group_id (labelList w1) =
      map (fun s => GidStr (py_str (group_id s))) (filter has_points (labelList w)).
Proof.
  eexists. split; [apply loadImg_spec|].
  cbn [labelList set_image_encoded_flag set_labelList].
  unfold saveLabels. rewrite loaded_shapes_of_saved, !map_map.
  repeat split.
Qed.

Lemma reloaded_has_points (cats : list string) (l : list Shape) :
  filter has_points (map (reloaded cats) (filter has_points l))
  = map (reloaded cats) (filter has_points l).
Proof.
  induction l as [|s r IH]; [reflexivity|]. cbn [filter].
  destruct (has_points s) eqn:E; [|exact IH].
  cbn [map filter]. unfold has_points at 1. cbn [reloaded points].
  unfold has_points in E. destruct (points s); [discriminate|]. now rewrite IH.
Qed.

(** X13. From the second time on the file format round-trips exactly:
    when no label of the list is changed by the category lookup, saving
    a label list that was itself loaded from a saved file and loading it
    again gives the same label list. *)
Theorem save_then_load_twice (w w0 : MainWindow) :
  (forall s, In s (labelList w) ->
             resolve_label (category_list w0) (label s) = label s) ->
  exists w1 w2,
    loadImg (Some (saveLabels w)) w0 = (Returned tt, w1) /\
    loadImg (Some (saveLabels w1)) w1 = (Returned tt, w2) /\
    labelList w2 = labelList w1 /\
    saveLabels w2 = saveLabels w1.
Proof.
  intros Hlab. do 2 eexists. split; [apply loadImg_spec|].
  split; [apply loadImg_spec|].
  assert (H : loaded_shapes (category_list w0)
                (map format_shape
                   (loaded_shapes (category_list w0) (map format_shape (labelList w))))
              = loaded_shapes (category_list w0) (map format_shape (labelList w))).
  { rewrite !loaded_shapes_of_saved, reloaded_has_points, map_map.
    apply map_ext_in. intros s Hs. apply filter_In in Hs. destruct Hs as [Hs _].
    unfold reloaded. cbn. now rewrite !(Hlab s Hs). }
  unfold saveLabels.
  cbn [labelList category_list set_image_encoded_flag set_labelList].
  unfold saveLabels in H. rewrite H. split; reflexivity.
Qed.

Lemma save_then_load_twice_witness :
  let s := mkShape "cat" "polygon" GidNone [] [(1, 1)%float] true in
  let w := window_with [s] [] [] false in
  exists w1 w2,
    loadImg (Some (saveLabels w)) w = (Returned tt, w1) /\
    loadImg (Some (saveLabels w1)) w1 = (Returned tt, w2) /\
    labelList w2 = labelList w1 /\
    saveLabels w2 = saveLabels w1.
Proof.
  intros s w. apply (save_then_load_twice w w).
  intros t [<-|[]]. reflexivity.
Defined.

Lemma py_index_nth {A : Type} (l : list A) (i : Z) (d : A) :
  0 <= i < Z.of_nat (length l) ->
  py_index l i = Some (nth (Z.to_nat i) l d).
Proof.
  intros Hi. unfold py_index.
  destruct (Z.leb_spec 0 i); [|lia].
  apply nth_error_nth'. lia.
Qed.

(** X14. A label that is the decimal numeral of a position in the
    category list (a numeral within the digit limit of [int()]) does
    not survive a save and load: the shape comes back labelled with the
    category at that position. *)
Theorem numeric_label_becomes_category (w w0 : MainWindow) (s : Shape) (i : Z) :
  In s (labelList w) ->
  points s <> [] ->
  label s = py_str_of_int i ->
  Z.of_nat (String.length (label s)) <= int_max_str_digits ->
  0 <= i < Z.of_nat (length (category_list w0)) ->
  exists w1 s',
    loadImg (Some (saveLabels w)) w0 = (Returned tt, w1) /\
    In s' (labelList w1) /\
    points s' = points s /\
    label s' = nth (Z.to_nat i) (category_list w0) ""%string.
Proof.
  intros Hin Hp Hl Hlen Hi.
  eexists. exists (reloaded (category_list w0) s).
  split; [apply loadImg_spec|]. split.
  - cbn [labelList set_image_encoded_flag set_labelList].
    unfold saveLabels. rewrite loaded_shapes_of_saved.
    apply in_map. apply filter_In. split; [exact Hin|].
    unfold has_points. now destruct (points s).
  - split; [reflexivity|]. cbn [reloaded label]. unfold resolve_label.
    rewrite Hl in Hlen |- *. rewrite (py_int_of_str_of_int i Hlen).
    now rewrite (py_index_nth _ i ""%string Hi).
Qed.

Lemma numeric_label_becomes_category_witness :
  let s := mkShape "1" "polygon" (GidInt 3) [] [(1, 1)%float] true in
  let w := window_with [s] [] [] false in
  exists w1 s',
    loadImg (Some (saveLabels w)) w = (Returned tt, w1) /\
    In s' (labelList w1) /\
    points s' = points s /\
    label s' = "dog"%string.
Proof.
  intros s w.
  apply (numeric_label_becomes_category w w s 1).
  - now left.
  - discriminate.
  - reflexivity.
  - vm_compute. discriminate.
  - cbn. lia.
Defined.

(** ** Navigation and annotation files *)

Lemma loadImg_returns (file : option (list json_shape)) (w : MainWindow) :
  loadImg file w =
  (Returned tt,
   set_image_encoded_flag false
     (set_labelList
        (match file with
         | Some data => loaded_shapes (category_list w) data
         | None => []
         end) w)).
Proof. destruct file; [apply loadImg_spec | reflexivity]. Qed.

Lemma string_length_append (a b : string) :
  String.length (a ++ b) = (String.length a + String.length b)%nat.
Proof. induction a as [|c a IH]; cbn; [reflexivity | now rewrite IH]. Qed.

Lemma list_ascii_of_string_append (a b : string) :
  list_ascii_of_string (a ++ b)
  = list_ascii_of_string a ++ list_ascii_of_string b.
Proof. induction a as [|c a IH]; cbn; [reflexivity | now rewrite IH]. Qed.

Section ImageProperties.

Variable imread_ok : string -> bool.

Lemma loadImg_file_readable (s : Session) :
  imread_ok (current_img (window s)) = true ->
  loadImg_file imread_ok s =
  (Done,
   set_window
     (set_image_encoded_flag false
        (set_labelList
           (match read_file (output_filename (current_output_dir s)
                               (current_img (window s))) (disk s) with
            | Some data => loaded_shapes (category_list (window s)) data
            | None => []
            end) (window s)))
     (set_current_output_filename
        (output_filename (current_output_dir s) (current_img (window s))) s)).
Proof.
  intros H. unfold loadImg_file. rewrite H.
  cbn [window disk set_current_output_filename]. now rewrite loadImg_returns.
Qed.

Lemma saved_nav_fields (s : Session) :
  let s1 := if save_enabled (window s) then saveFile s else s in
  img_list s1 = img_list s /\ img_len s1 = img_len s /\
  current_img_index s1 = current_img_index s /\
  current_img (window s1) = current_img (window s) /\
  current_output_dir s1 = current_output_dir s /\
  category_list (window s1) = category_list (window s) /\
  labelList (window s1) = labelList (window s).
Proof.
  cbn zeta. destruct (save_enabled (window s)); [|repeat split].
  unfold saveFile, _saveFile.
  destruct (current_output_filename s =? "")%string; repeat split.
Qed.

Lemma show_current_readable (s : Session) :
  (forall i, In i (img_list s) -> imread_ok i = true) ->
  img_len s = Z.of_nat (length (img_list s)) ->
  0 <= current_img_index s < img_len s ->
  exists s',
    show_current imread_ok s = (Done, s') /\
    nav_ok s' /\
    img_list s' = img_list s /\
    current_img_index s' = current_img_index s /\
    current_output_dir s' = current_output_dir s /\
    disk s' = disk s /\
    current_output_filename s' =
      output_filename (current_output_dir s) (current_img (window s')) /\
    save_enabled (window s') = save_enabled (window s) /\
    category_list (window s') = category_list (window s) /\
    labelList (window s') =
      match read_file (current_output_filename s') (disk s) with
      | Some data => loaded_shapes (category_list (window s)) data
      | None => []
      end.
Proof.
  intros Hread Hlen Hidx. unfold show_current.
  rewrite (py_index_nth (img_list s) (current_img_index s) ""%string) by lia.
  set (im := nth (Z.to_nat (current_img_index s)) (img_list s) ""%string).
  assert (Him : In im (img_list s)) by (apply nth_In; lia).
  rewrite loadImg_file_readable by (cbn; now apply Hread).
  eexists. split; [reflexivity|]. unfold nav_ok. cbn.
  split; [split; [assumption | split; [lia | apply nth_error_nth'; lia]]|].
  repeat (split; [reflexivity|]). reflexivity.
Qed.

(** X15. On a session whose navigation fields agree and whose images are
    readable, both navigation buttons return and keep the fields in
    agreement; "Next" moves to the next position or stays at the last
    one, "Last" moves to the one before or stays at the first. *)
Theorem navigation_stays_in_range (s : Session) :
  nav_ok s ->
  (forall i, In i (img_list s) -> imread_ok i = true) ->
  (exists s',
     clickButtonNext imread_ok s = (Done, s') /\ nav_ok s' /\
     img_list s' = img_list s /\
     current_img_index s' = Z.min (current_img_index s + 1) (img_len s - 1)) /\
  (exists s',
     clickButtonLast imread_ok s = (Done, s') /\ nav_ok s' /\
     img_list s' = img_list s /\
     current_img_index s' = Z.max (current_img_index s - 1) 0).
Proof.
  intros [Hlen [Hidx Hcur]] Hread.
  destruct (saved_nav_fields s) as [H1 [H2 [H3 [H4 [H5 [H6 H7]]]]]].
  cbn zeta in *.
  set (s1 := if save_enabled (window s) then saveFile s else s) in *.
  split.
  - unfold clickButtonNext. fold s1. rewrite H2, H3.
    destruct (Z.ltb_spec (current_img_index s) (img_len s - 1)) as [Hlt|Hge].
    + destruct (show_current_readable
                  (set_current_img_index (current_img_index s + 1) s1))
        as [s' [Hrun [Hok [Hl [Hi _]]]]].
      * cbn. rewrite H1. exact Hread.
      * cbn. now rewrite H1, H2.
      * cbn. rewrite H2. lia.
      * exists s'. split; [exact Hrun|]. split; [exact Hok|].
        cbn in Hl, Hi. split; [now rewrite Hl | lia].
    + exists s1. split; [reflexivity|]. split.
      * unfold nav_ok. rewrite H1, H2, H3, H4. now split.
      * split; [exact H1 | lia].
  - unfold clickButtonLast. fold s1. rewrite H3.
    destruct (Z.ltb_spec 0 (current_img_index s)) as [Hlt|Hge].
    + destruct (show_current_readable
                  (set_current_img_index (current_img_index s - 1) s1))
        as [s' [Hrun [Hok [Hl [Hi _]]]]].
      * cbn. rewrite H1. exact Hread.
      * cbn. now rewrite H1, H2.
      * cbn. rewrite H2. lia.
      * exists s'. split; [exact Hrun|]. split; [exact Hok|].
        cbn in Hl, Hi. split; [now rewrite Hl | lia].
    + exists s1. split; [reflexivity|]. split.
      * unfold nav_ok. rewrite H1, H2, H3, H4. now split.
      * split; [exact H1 | lia].
Qed.


Lemma output_filename_not_empty (dir img : string) :
  (output_filename dir img =? "")%string = false.
Proof.
  apply String.eqb_neq. intros H.
  apply (f_equal String.length) in H. revert H.
  unfold output_filename, path_join.
  set (b := (drop_last4 (basename img) ++ ".json")%string).
  assert (Hb : (0 < String.length b)%nat).
  { unfold b. rewrite string_length_append. cbn. lia. }
  destruct (list_ascii_of_string b) as [|c r];
    [|destruct (c =? "/")%char];
    try (destruct (rev (list_ascii_of_string dir)) as [|d r']; [|destruct (d =? "/")%char]);
    rewrite ?string_length_append; cbn [String.length]; lia.
Qed.

(** X16. Going to the next image and back with unsaved changes: the
    changes are written to the image's annotation file on the way out
    and read back on return, so the label list comes back as its shapes
    with points, each in its saved form (group id turned into a string,
    label resolved against the category list).  If one of those shapes
    had no group id, [getMaxId] raises [ValueError] afterwards. *)
Theorem next_then_last_reloads_saved_shapes (s : Session) :
  nav_ok s ->
  (forall i, In i (img_list s) -> imread_ok i = true) ->
  current_img_index s < img_len s - 1 ->
  save_enabled (window s) = true ->
  current_output_filename s
  = output_filename (current_output_dir s) (current_img (window s)) ->
  exists s1 s2,
    clickButtonNext imread_ok s = (Done, s1) /\
    clickButtonLast imread_ok s1 = (Done, s2) /\
    read_file (current_output_filename s) (disk s1) = Some (saveLabels (window s)) /\
    current_img_index s2 = current_img_index s /\
    current_img (window s2) = current_img (window s) /\
    labelList (window s2)
    = map (reloaded (category_list (window s)))
          (filter has_points (labelList (window s))) /\
    ((exists sh, In sh (labelList (window s)) /\ group_id sh = GidNone /\
                 has_points sh = true) ->
     getMaxId (window s2) = (Raised ValueError, window s2)).
Proof.
  intros [Hlen [Hidx Hcur]] Hread Hlt Hsave Hfn.
  assert (Hne : (current_output_filename s =? "")%string = false)
    by (rewrite Hfn; apply output_filename_not_empty).
  unfold clickButtonNext. rewrite Hsave.
  unfold saveFile, _saveFile. rewrite Hne.
  set (s0 := setClean _).
  change (current_img_index s0) with (current_img_index s).
  change (img_len s0) with (img_len s).
  destruct (Z.ltb_spec (current_img_index s) (img_len s - 1)) as [_|]; [|lia].
  destruct (show_current_readable (set_current_img_index (current_img_index s + 1) s0))
    as [s1 [Hrun [Hok1 [Hl1 [Hi1 [Hd1 [Hk1 [_ [Hs1 [Hc1 _]]]]]]]]]].
  { exact Hread. } { exact Hlen. } { cbn. lia. }
  cbn in Hl1, Hi1, Hd1, Hk1, Hs1, Hc1.
  exists s1. rewrite Hrun.
  unfold clickButtonLast. rewrite Hs1, Hi1.
  destruct (Z.ltb_spec 0 (current_img_index s + 1)) as [_|]; [|lia].
  destruct (show_current_readable (set_current_img_index (current_img_index s + 1 - 1) s1))
    as [s2 [Hrun2 [Hok2 [Hl2 [Hi2 [Hd2 [Hk2 [Hf2 [_ [_ Hlab]]]]]]]]]].
  { cbn. rewrite Hl1. exact Hread. }
  { cbn. destruct Hok1 as [H _]. exact H. }
  { cbn. destruct Hok1 as [H _]. rewrite H, Hl1, <- Hlen. lia. }
  cbn in Hl2, Hi2, Hd2, Hk2, Hf2, Hlab.
  assert (Himg : current_img (window s2) = current_img (window s)).
  { destruct Hok2 as [_ [_ Hn]]. rewrite Hl2, Hl1, Hi2 in Hn.
    replace (current_img_index s + 1 - 1) with (current_img_index s) in Hn by lia.
    congruence. }
  assert (Hfile : current_output_filename s2 = current_output_filename s).
  { rewrite Hf2, Hd1, Himg. now rewrite Hfn. }
  exists s2. split; [reflexivity|]. split; [exact Hrun2|].
  split; [rewrite Hk1; cbn; now rewrite String.eqb_refl|].
  split; [lia|]. split; [exact Himg|].
  assert (Hl : labelList (window s2)
               = map (reloaded (category_list (window s)))
                     (filter has_points (labelList (window s)))).
  { rewrite Hlab, Hfile, Hk1, Hc1. cbn [read_file write_file disk set_disk].
    rewrite String.eqb_refl. unfold saveLabels. apply loaded_shapes_of_saved. }
  split; [exact Hl|].
  intros [sh [Hin [Hg Hp]]].
  unfold getMaxId. f_equal. rewrite Hl.
  apply (getMaxId_loop_raises _ (reloaded (category_list (window s)) sh)).
  - apply in_map. apply filter_In. now split.
  - discriminate.
  - cbn [reloaded group_id]. rewrite Hg. intros n. vm_compute. discriminate.
Qed.

(** X17. Choosing an output directory reads the current image's
    annotation file of that directory and never writes one: the label
    list is replaced by that file's shapes, or emptied when there is no
    such file, while the files and the state of the save action stay as
    they were.  When the current image cannot be read (none has been
    opened yet), the handler fails after the directory has been
    changed. *)
Theorem clickSaveChoose_reloads_without_saving (directory : string) (s : Session) :
  (directory =? "")%string = false ->
  (imread_ok (current_img (window s)) = true ->
   exists s',
     clickSaveChoose imread_ok directory s = (Done, s') /\
     disk s' = disk s /\
     current_output_dir s' = directory /\
     current_output_filename s'
     = output_filename directory (current_img (window s)) /\
     save_enabled (window s') = save_enabled (window s) /\
     labelList (window s')
     = match read_file (current_output_filename s') (disk s) with
       | Some data => loaded_shapes (category_list (window s)) data
       | None => []
       end) /\
  (imread_ok (current_img (window s)) = false ->
   clickSaveChoose imread_ok directory s
   = (Failed AttributeError, set_current_output_dir directory s)).
Proof.
  intros Hd. unfold clickSaveChoose. rewrite Hd. split; intros Hr.
  - rewrite loadImg_file_readable by exact Hr.
    eexists. split; [reflexivity|]. cbn. repeat (split; [reflexivity|]). reflexivity.
  - unfold loadImg_file. cbn [window set_current_output_dir]. now rewrite Hr.
Qed.

(** X18. Choosing an image directory without [.jpg] or [.png] files
    empties the image list but keeps the old index and image. Both
    navigation buttons still save first when the save action is
    enabled; after that, when the index is not 0, "Last" lowers it and
    raises [IndexError] on the empty list, and "Next" does nothing
    more. *)
Theorem clickFileChoose_empty_directory_keeps_index (directory : string) (s : Session) :
  (directory =? "")%string = false ->
  0 < current_img_index s ->
  exists s1,
    clickFileChoose imread_ok directory [] [] s = (Done, s1) /\
    img_list s1 = [] /\ img_len s1 = 0 /\
    current_img_index s1 = current_img_index s /\
    current_img (window s1) = current_img (window s) /\
    clickButtonLast imread_ok s1
    = (Failed (WindowRaised IndexError),
       set_current_img_index (current_img_index s - 1)
         (if save_enabled (window s1) then saveFile s1 else s1)) /\
    clickButtonNext imread_ok s1
    = (Done, if save_enabled (window s1) then saveFile s1 else s1).
Proof.
  intros Hd Hi. unfold clickFileChoose. rewrite Hd.
  change (StringSort.sort ([] ++ [])) with (@nil string). cbn.
  eexists. split; [reflexivity|]. cbn.
  do 4 (split; [reflexivity|]).
  destruct (saved_nav_fields (set_img_list [] 0 s)) as [H1 [H2 [H3 _]]].
  cbn zeta in *. cbn [window set_img_list] in *.
  set (s1 := if save_enabled (window s) then _ else _) in *.
  cbn [img_list img_len current_img_index set_img_list] in H1, H2, H3.
  split.
  - unfold clickButtonLast. cbn [window set_img_list]. fold s1. rewrite H3.
    destruct (Z.ltb_spec 0 (current_img_index s)) as [_|]; [|lia].
    unfold show_current. cbn [img_list current_img_index set_current_img_index].
    rewrite H1.
    assert (Hnone : py_index (@nil string) (current_img_index s - 1) = None).
    { unfold py_index. destruct (Z.leb_spec 0 (current_img_index s - 1)); [|lia].
      now destruct (Z.to_nat (current_img_index s - 1)). }
    now rewrite Hnone.
  - unfold clickButtonNext. cbn [window set_img_list]. fold s1. rewrite H3, H2.
    destruct (Z.ltb_spec (current_img_index s) (0 - 1)) as [|_]; [lia|].
    reflexivity.
Qed.

(** X19. Choosing an image directory that has images, all readable:
    the image list becomes the [.jpg] and [.png] paths together in
    sorted order, the first of them is shown, and the navigation fields
    agree afterwards. *)
Theorem clickFileChoose_sorts_and_shows_first (directory : string)
  (jpgs pngs : list string) (s : Session) :
  (directory =? "")%string = false ->
  (0 < length (jpgs ++ pngs))%nat ->
  (forall i, In i (jpgs ++ pngs) -> imread_ok i = true) ->
  exists s',
    clickFileChoose imread_ok directory jpgs pngs s = (Done, s') /\
    nav_ok s' /\
    current_img_index s' = 0 /\
    Permutation (jpgs ++ pngs) (img_list s') /\
    Sorted.Sorted (fun a b => String.leb a b = true) (img_list s') /\
    disk s' = disk s.
Proof.
  intros Hd Hn Hread. unfold clickFileChoose. rewrite Hd. cbn zeta.
  set (l := StringSort.sort (jpgs ++ pngs)).
  assert (Hperm : Permutation (jpgs ++ pngs) l) by apply StringSort.Permuted_sort.
  assert (Hlen : length l = length (jpgs ++ pngs))
    by (symmetry; now apply Permutation_length).
  cbn [img_len set_img_list].
  destruct (Z.eqb_spec (Z.of_nat (length l)) 0) as [E|_]; [lia|].
  destruct (show_current_readable
              (set_current_img_index 0 (set_img_list l (Z.of_nat (length l)) s)))
    as [s' [Hrun [Hok [Hl [Hi [_ [Hk _]]]]]]].
  { cbn. intros i Hin. apply Hread. eapply Permutation_in; [|exact Hin].
    now apply Permutation_sym. }
  { reflexivity. } { cbn. lia. }
  cbn in Hl, Hi, Hk.
  exists s'. split; [exact Hrun|]. split; [exact Hok|]. split; [exact Hi|].
  rewrite Hl. split; [exact Hperm|]. split; [|exact Hk].
  apply StringSort.LocallySorted_sort || apply StringSort.Sorted_sort.
Qed.

End ImageProperties.

Lemma navigation_stays_in_range_witness :
  let s := session_with (set_current_img "a.jpg" (window_with [] [] [] false))
             ["a.jpg"; "b.jpg"]%string 0 "" [] in
  (exists s',
     clickButtonNext (fun _ => true) s = (Done, s') /\ nav_ok s' /\
     img_list s' = img_list s /\
     current_img_index s' = Z.min (current_img_index s + 1) (img_len s - 1)) /\
  (exists s',
     clickButtonLast (fun _ => true) s = (Done, s') /\ nav_ok s' /\
     img_list s' = img_list s /\
     current_img_index s' = Z.max (current_img_index s - 1) 0).
Proof.
  intros s. apply (navigation_stays_in_range (fun _ => true) s).
  - unfold nav_ok. cbn. split; [reflexivity|]. split; [lia | reflexivity].
  - reflexivity.
Defined.

Lemma next_then_last_reloads_saved_shapes_witness :
  let sh := mkShape "Object" "polygon" GidNone [] [(1, 1)%float] true in
  let s := session_with (set_actions true false (window_with [sh] [] [] false))
             ["a.jpg"; "b.jpg"]%string 0 "output/a.json" [] in
  exists s1 s2,
    clickButtonNext (fun _ => true) s = (Done, s1) /\
    clickButtonLast (fun _ => true) s1 = (Done, s2) /\
    read_file (current_output_filename s) (disk s1) = Some (saveLabels (window s)) /\
    current_img_index s2 = current_img_index s /\
    current_img (window s2) = current_img (window s) /\
    labelList (window s2)
    = map (reloaded (category_list (window s)))
          (filter has_points (labelList (window s))) /\
    ((exists sh, In sh (labelList (window s)) /\ group_id sh = GidNone /\
                 has_points sh = true) ->
     getMaxId (window s2) = (Raised ValueError, window s2)).
Proof.
  intros sh s. apply (next_then_last_reloads_saved_shapes (fun _ => true) s).
  - unfold nav_ok. cbn. split; [reflexivity|]. split; [lia | reflexivity].
  - reflexivity.
  - cbn. lia.
  - reflexivity.
  - reflexivity.
Defined.

Lemma clickSaveChoose_reloads_without_saving_witness :
  let s := session_with (set_actions true false (window_with [one_shape] [] [] false))
             ["a.jpg"]%string 0 "output/a.json" [] in
  (true = true ->
   exists s',
     clickSaveChoose (fun _ => true) "labels" s = (Done, s') /\
     disk s' = disk s /\
     current_output_dir s' = "labels"%string /\
     current_output_filename s'
     = output_filename "labels" (current_img (window s)) /\
     save_enabled (window s') = save_enabled (window s) /\
     labelList (window s')
     = match read_file (current_output_filename s') (disk s) with
       | Some data => loaded_shapes (category_list (window s)) data
       | None => []
       end) /\
  (true = false ->
   clickSaveChoose (fun _ => true) "labels" s
   = (Failed AttributeError, set_current_output_dir "labels" s)).
Proof.
  intros s.
  apply (clickSaveChoose_reloads_without_saving (fun _ => true) "labels" s).
  reflexivity.
Defined.

Lemma clickFileChoose_empty_directory_keeps_index_witness :
  let s := session_with (set_actions true false (window_with [one_shape] [] [] false))
             ["0.jpg"; "a.jpg"]%string 1 "output/a.json" [] in
  exists s1,
    clickFileChoose (fun _ => true) "empty" [] [] s = (Done, s1) /\
    img_list s1 = [] /\ img_len s1 = 0 /\
    current_img_index s1 = current_img_index s /\
    current_img (window s1) = current_img (window s) /\
    clickButtonLast (fun _ => true) s1
    = (Failed (WindowRaised IndexError),
       set_current_img_index (current_img_index s - 1)
         (if save_enabled (window s1) then saveFile s1 else s1)) /\
    clickButtonNext (fun _ => true) s1
    = (Done, if save_enabled (window s1) then saveFile s1 else s1).
Proof.
  intros s.
  apply (clickFileChoose_empty_directory_keeps_index (fun _ => true) "empty" s).
  - reflexivity.
  - cbn. lia.
Defined.

Lemma clickFileChoose_sorts_and_shows_first_witness :
  let s := session_with (window_with [] [] [] false) [] 0 "" [] in
  exists s',
    clickFileChoose (fun _ => true) "imgs" ["imgs/b.jpg"]%string ["imgs/a.png"]%string s
    = (Done, s') /\
    nav_ok s' /\
    current_img_index s' = 0 /\
    Permutation (["imgs/b.jpg"%string] ++ ["imgs/a.png"%string]) (img_list s') /\
    Sorted.Sorted (fun a b => String.leb a b = true) (img_list s') /\
    disk s' = disk s.
Proof.
  intros s.
  apply (clickFileChoose_sorts_and_shows_first (fun _ => true) "imgs"
           ["imgs/b.jpg"]%string ["imgs/a.png"]%string s).
  - reflexivity.
  - cbn. lia.
  - reflexivity.
Defined.

(** ** Names of annotation files *)

Lemma until_slash_app (l r : list ascii) :
  forallb (fun c => negb (c =? "/")%char) l = true ->
  until_slash (l ++ "/"%char :: r) = l.
Proof.
  induction l as [|c l IH]; cbn; [reflexivity|].
  intros H. apply andb_prop in H. destruct H as [Hc Hl].
  destruct (c =? "/")%char; [discriminate|]. now rewrite IH.
Qed.

Lemma forallb_rev {A : Type} (f : A -> bool) (l : list A) :
  forallb f l = true -> forallb f (rev l) = true.
Proof.
  rewrite !forallb_forall. intros H x Hx. apply H. now apply in_rev.
Qed.

Lemma basename_of_path (d n : string) :
  no_slash n = true -> basename (d ++ "/" ++ n) = n.
Proof.
  intros Hn. unfold basename.
  rewrite list_ascii_of_string_append. cbn [append list_ascii_of_string].
  rewrite rev_app_distr. cbn [rev]. rewrite <- app_assoc. cbn [app].
  rewrite until_slash_app by (apply forallb_rev; exact Hn).
  rewrite rev_involutive. apply string_of_list_ascii_of_string.
Qed.

Lemma drop_last4_of_extension (stem ext : string) :
  String.length ext = 4%nat -> drop_last4 (stem ++ ext) = stem.
Proof.
  intros He. unfold drop_last4. rewrite list_ascii_of_string_append.
  rewrite length_app, !length_list_ascii_of_string, He.
  replace (String.length stem + 4 - 4)%nat
    with (length (list_ascii_of_string stem) + 0)%nat
    by (rewrite length_list_ascii_of_string; lia).
  rewrite firstn_app_2. cbn [firstn]. rewrite app_nil_r.
  apply string_of_list_ascii_of_string.
Qed.

(** X20. The annotation file of an image is named by the image's file
    name without its last four characters, in the output directory: the
    image's own directory and its extension play no part, so
    [stem.jpg] and [stem.png] share one annotation file. *)
Theorem output_filename_ignores_directory_and_extension
  (dir d1 d2 stem ext1 ext2 : string) :
  no_slash stem = true -> no_slash ext1 = true -> no_slash ext2 = true ->
  String.length ext1 = 4%nat -> String.length ext2 = 4%nat ->
  output_filename dir (d1 ++ "/" ++ stem ++ ext1)
  = path_join dir (stem ++ ".json") /\
  output_filename dir (d1 ++ "/" ++ stem ++ ext1)
  = output_filename dir (d2 ++ "/" ++ stem ++ ext2).
Proof.
  intros Hs H1 H2 L1 L2.
  assert (Hn : forall e, no_slash e = true -> no_slash (stem ++ e) = true).
  { intros e He. unfold no_slash in *. rewrite list_ascii_of_string_append.
    rewrite forallb_app. now rewrite Hs, He. }
  unfold output_filename.
  rewrite !basename_of_path by (apply Hn; assumption).
  now rewrite !drop_last4_of_extension by assumption.
Qed.

Lemma output_filename_ignores_directory_and_extension_witness :
  output_filename "output" ("imgs" ++ "/" ++ "cat" ++ ".jpg")
  = path_join "output" ("cat" ++ ".json") /\
  output_filename "output" ("imgs" ++ "/" ++ "cat" ++ ".jpg")
  = output_filename "output" ("imgs" ++ "/" ++ "cat" ++ ".png").
Proof.
  apply (output_filename_ignores_directory_and_extension
           "output" "imgs" "imgs" "cat" ".jpg" ".png"); reflexivity.
Defined.

(** ** Saving and the drawing actions *)

(** X21. Saving to a named annotation file while a drawing mode is
    active: the file then holds the label list's shapes, the other files
    and the label list are as before, the save action is disabled, and
    the polygon action is enabled whatever the drawing mode, so that in
    polygon mode no drawing action is disabled any more. *)
Theorem saveFile_in_drawing_mode (mode : string) (s : Session) (p : string) :
  (current_output_filename s =? "")%string = false ->
  In mode ["polygon"; "point"; "rectangle"]%string ->
  exists s1,
    toggleDrawMode false mode s = (Done, s1) /\
    createMode_enabled s1 = negb (mode =? "polygon")%string /\
    read_file (current_output_filename s) (disk (saveFile s1))
    = Some (saveLabels (window s)) /\
    ((p =? current_output_filename s)%string = false ->
     read_file p (disk (saveFile s1)) = read_file p (disk s)) /\
    labelList (window (saveFile s1)) = labelList (window s) /\
    save_enabled (window (saveFile s1)) = false /\
    createMode_enabled (saveFile s1) = true /\
    createPointMode_enabled (saveFile s1) = negb (mode =? "point")%string /\
    createRectangleMode_enabled (saveFile s1) = negb (mode =? "rectangle")%string.
Proof.
  intros Hfn Hmode.
  assert (Hread : forall q d data,
             (q =? current_output_filename s)%string = false ->
             read_file q (write_file (current_output_filename s) data d)
             = read_file q d).
  { intros q d data Hq. cbn. rewrite String.eqb_sym. now rewrite Hq. }
  destruct Hmode as [<-|[<-|[<-|[]]]]; cbn [toggleDrawMode String.eqb Ascii.eqb Bool.eqb negb];
    (eexists; split; [reflexivity|]);
    unfold saveFile, _saveFile; cbn [current_output_filename set_window set_create_actions];
    rewrite Hfn; cbn; rewrite String.eqb_refl;
    repeat (split; [reflexivity|]);
    (split; [intros Hp; rewrite String.eqb_sym; now rewrite Hp|]);
    repeat (split; [reflexivity|]); reflexivity.
Qed.

Lemma saveFile_in_drawing_mode_witness :
  let s := session_with (set_actions true false (window_with [one_shape] [] [] false))
             ["a.jpg"]%string 0 "output/a.json" [] in
  exists s1,
    toggleDrawMode false "polygon" s = (Done, s1) /\
    createMode_enabled s1 = negb ("polygon" =? "polygon")%string /\
    read_file (current_output_filename s) (disk (saveFile s1))
    = Some (saveLabels (window s)) /\
    (("output/b.json" =? current_output_filename s)%string = false ->
     read_file "output/b.json" (disk (saveFile s1)) = read_file "output/b.json" (disk s)) /\
    labelList (window (saveFile s1)) = labelList (window s) /\
    save_enabled (window (saveFile s1)) = false /\
    createMode_enabled (saveFile s1) = true /\
    createPointMode_enabled (saveFile s1) = negb ("polygon" =? "point")%string /\
    createRectangleMode_enabled (saveFile s1) = negb ("polygon" =? "rectangle")%string.
Proof.
  intros s. apply (saveFile_in_drawing_mode "polygon" s "output/b.json").
  - reflexivity.
  - left. reflexivity.
Defined.

(** ** The category file *)

(** X22. Choosing a category file replaces the category list by the
    file's lines, stripped and in sorted order, whatever their order in
    the file, and leaves the shapes already in the label list as they
    are; when the file cannot be read the window is unchanged. *)
Theorem clickCategoryChoose_sorts_lines (file : option (list string)) (w : MainWindow) :
  exists w',
    clickCategoryChoose file w = (Returned tt, w') /\
    labelList w' = labelList w /\
    match file with
    | Some data =>
        Permutation (map str_strip data) (category_list w') /\
        Sorted.Sorted (fun a b => String.leb a b = true) (category_list w')
    | None => w' = w
    end.
Proof.
  destruct file as [data|]; cbn; eexists; (split; [reflexivity|]).
  - split; [reflexivity|]. cbn. split.
    + apply StringSort.Permuted_sort.
    + apply StringSort.LocallySorted_sort || apply StringSort.Sorted_sort.
  - split; reflexivity.
Qed.
